(** * Sensor-Control-Modules: the wired (Vaisala, Kurz) and wireless (Polar)
    sensor drivers, embedded from the Go sources.

    - [internal/vaisala/vaisala.go]: CO2 probe over a serial line.
    - [internal/kurz/kurz.go]: air-flow meter over a serial line.
    - the [polar] package: heart-rate strap over Bluetooth notifications.

    Go values are modelled as follows: a [string] is a sequence of bytes
    (Rocq's [string] of [ascii]); a [float64] is a primitive binary64 float;
    an [error] is [option string] ([None] is [nil], [Some msg] carries
    [err.Error()]); a slice is a list ([[]] is the nil slice where only its
    length is observed).  Calls that reach the outside world (the serial
    port, the mutex, the clock, the log, the channels) are events of a small
    free monad [io]; a program is run against a scripted [World]. *)

From Stdlib Require Import ZArith NArith List String Ascii Bool Lia PrimFloat.
From Stdlib.Strings Require Byte.
From Stdlib.Numbers Require DecimalString.
From stdpp Require Import base list relations.
Import ListNotations.

Local Open Scope string_scope.
Local Open Scope list_scope.

(** Concatenation of byte strings, Go's [s + t]. *)
Infix "+:+" := String.append (at level 60, right associativity).

(* ===================================================================== *)
(** ** Bytes and strings                                                  *)
(* ===================================================================== *)

(** The Go escapes ['\n'] and ['\r']. *)
Definition LF : ascii := "010"%char.
Definition CR : ascii := "013"%char.

(** The two-byte terminator ["\r\n"]. *)
Definition CRLF : string := String CR (String LF "").

(** [s[n:]] and [s[:n]] on byte strings. *)
Fixpoint sdrop (n : nat) (s : string) : string :=
  match n, s with
  | S n', String _ s' => sdrop n' s'
  | _, _ => s
  end.

Fixpoint stake (n : nat) (s : string) : string :=
  match n, s with
  | S n', String c s' => String c (stake n' s')
  | _, _ => ""
  end.

Definition byteval (c : ascii) : N := N_of_ascii c.

(** [strings.Contains(s, sep)] for a one-byte separator. *)
Fixpoint ContainsByte (s : string) (sep : ascii) : bool :=
  match s with
  | "" => false
  | String c s' => Ascii.eqb c sep || ContainsByte s' sep
  end.

(** [strings.Split(s, sep)] for a one-byte separator: the pieces between
    consecutive separators, [1 + Count(s, sep)] of them. *)
Fixpoint SplitByte_go (s : string) (sep : ascii) (cur : string) : list string :=
  match s with
  | "" => [cur]
  | String c s' =>
      if Ascii.eqb c sep then cur :: SplitByte_go s' sep ""
      else SplitByte_go s' sep (cur +:+ String c "")
  end.

Definition SplitByte (s : string) (sep : ascii) : list string :=
  SplitByte_go s sep "".

(* --------------------------------------------------------------------- *)
(** *** UTF-8 decoding ([unicode/utf8])                                   *)
(* --------------------------------------------------------------------- *)

Definition RuneError : N := 65533%N.

Definition is_cont (lo hi : N) (c : ascii) : bool :=
  (lo <=? byteval c)%N && (byteval c <=? hi)%N.

(** [utf8.DecodeRuneInString]: the first rune of [s] and its width in
    bytes; an invalid or truncated encoding is [RuneError] of width 1, the
    empty string is [RuneError] of width 0. *)
Definition DecodeRuneInString (s : string) : N * nat :=
  match s with
  | "" => (RuneError, 0)
  | String c0 t =>
      let s0 := byteval c0 in
      if (s0 <? 128)%N then (s0, 1)
      else if (s0 <? 194)%N || (244 <? s0)%N then (RuneError, 1)
      else
        let lo := if (s0 =? 224)%N then 160%N
                  else if (s0 =? 240)%N then 144%N else 128%N in
        let hi := if (s0 =? 237)%N then 159%N
                  else if (s0 =? 244)%N then 143%N else 191%N in
        match t with
        | "" => (RuneError, 1)
        | String c1 t1 =>
            if negb (is_cont lo hi c1) then (RuneError, 1)
            else if (s0 <? 224)%N then
              (N.lor (N.shiftl (N.land s0 31) 6) (N.land (byteval c1) 63), 2)
            else
              match t1 with
              | "" => (RuneError, 1)
              | String c2 t2 =>
                  if negb (is_cont 128 191 c2) then (RuneError, 1)
                  else if (s0 <? 240)%N then
                    (N.lor (N.shiftl (N.land s0 15) 12)
                       (N.lor (N.shiftl (N.land (byteval c1) 63) 6)
                          (N.land (byteval c2) 63)), 3)
                  else
                    match t2 with
                    | "" => (RuneError, 1)
                    | String c3 _ =>
                        if negb (is_cont 128 191 c3) then (RuneError, 1)
                        else
                          (N.lor (N.shiftl (N.land s0 7) 18)
                             (N.lor (N.shiftl (N.land (byteval c1) 63) 12)
                                (N.lor (N.shiftl (N.land (byteval c2) 63) 6)
                                   (N.land (byteval c3) 63))), 4)
                    end
              end
        end
  end.

(** [unicode.IsSpace]: the Latin-1 cases and the [White_Space] table. *)
Definition IsSpace (r : N) : bool :=
  ((9 <=? r) && (r <=? 13) || (r =? 32) || (r =? 133) || (r =? 160)
   || (r =? 5760) || (8192 <=? r) && (r <=? 8202) || (r =? 8232)
   || (r =? 8233) || (r =? 8239) || (r =? 8287) || (r =? 12288))%N.

(** The [for _, r := range s] loop: the runes of [s], each with the bytes
    that encode it.  The fuel is the byte length, every rune of a non-empty
    string being at least one byte wide. *)
Fixpoint runes_go (fuel : nat) (s : string) : list (N * string) :=
  match fuel, s with
  | S f, String _ _ =>
      let '(r, w) := DecodeRuneInString s in
      (r, stake w s) :: runes_go f (sdrop w s)
  | _, _ => []
  end.

Definition runes (s : string) : list (N * string) :=
  runes_go (String.length s) s.

(** [strings.Fields(s)]: the maximal runs of non-space runes. [cur] is the
    field being collected, if any. *)
Fixpoint Fields_go (rs : list (N * string)) (cur : option string) : list string :=
  match rs with
  | [] => match cur with Some f => [f] | None => [] end
  | (r, bytes) :: rs' =>
      if IsSpace r then
        match cur with
        | Some f => f :: Fields_go rs' None
        | None => Fields_go rs' None
        end
      else
        Fields_go rs' (Some (match cur with Some f => f +:+ bytes | None => bytes end))
  end.

Definition Fields (s : string) : list string := Fields_go (runes s) None.

(** [strings.TrimSpace(s)]: [s] without its leading and trailing space
    runes. *)
Fixpoint trim_left (rs : list (N * string)) : list (N * string) :=
  match rs with
  | (r, _) :: rs' => if IsSpace r then trim_left rs' else rs
  | [] => []
  end.

Definition unrunes (rs : list (N * string)) : string :=
  fold_right (fun rb acc => snd rb +:+ acc) "" rs.

Definition TrimSpace (s : string) : string :=
  unrunes (rev (trim_left (rev (trim_left (runes s))))).

(** [fmt.Sprintf(format, arg)] with one string operand.  [pct] tells that
    the previous byte opened a verb.  [%s] and [%v] print the operand, [%%]
    is a percent sign; a verb without operand, another verb, a format that
    ends inside a verb and an operand that no verb consumed are reported
    the way [fmt] does. *)
Fixpoint Sprintf_go (format : string) (pct : bool) (arg : option string) : string :=
  match format with
  | "" =>
      (if pct then "%!(NOVERB)" else "") +:+
      match arg with
      | Some a => "%!(EXTRA string=" +:+ a +:+ ")"
      | None => ""
      end
  | String c rest =>
      if pct then
        if Ascii.eqb c "%" then String "%" (Sprintf_go rest false arg)
        else
          match arg with
          | Some a =>
              (if Ascii.eqb c "s" || Ascii.eqb c "v" then a
               else "%!" +:+ String c "(string=" +:+ a +:+ ")")
              +:+ Sprintf_go rest false None
          | None => "%!" +:+ String c "(MISSING)" +:+ Sprintf_go rest false None
          end
      else if Ascii.eqb c "%" then Sprintf_go rest true arg
      else String c (Sprintf_go rest false arg)
  end.

Definition Sprintf (format : string) (arg : string) : string :=
  Sprintf_go format false (Some arg).

(* ===================================================================== *)
(** ** Regular expressions ([regexp])                                     *)
(* ===================================================================== *)

(** The fragment of RE2 syntax the drivers' patterns are written in:
    literals, [.], the Perl classes [\s \w \d], the greedy repetitions
    [* + ?], alternation and capturing groups.  Matching is leftmost-first,
    the way a backtracking matcher explores a pattern, and works on runes. *)

Inductive cclass : Type :=
| CAny                 (* [.]: any rune but a line feed *)
| CSpace               (* [\s] = [\t\n\f\r ] *)
| CWord                (* [\w] = [0-9A-Za-z_] *)
| CDigit               (* [\d] = [0-9] *)
| CLit (c : ascii).    (* an ASCII literal *)

Definition class_match (cl : cclass) (r : N) : bool :=
  match cl with
  | CAny => negb (r =? 10)%N
  | CSpace => ((r =? 9) || (r =? 10) || (r =? 12) || (r =? 13) || (r =? 32))%N
  | CWord => ((48 <=? r) && (r <=? 57) || (65 <=? r) && (r <=? 90)
              || (97 <=? r) && (r <=? 122) || (r =? 95))%N
  | CDigit => ((48 <=? r) && (r <=? 57))%N
  | CLit c => (r =? byteval c)%N
  end.

Inductive regex : Type :=
| RFail                          (* matches nothing *)
| REmpty                         (* the empty string *)
| RRune (cl : cclass)            (* one rune of a class *)
| RSeq (r1 r2 : regex)
| RAlt (r1 r2 : regex)           (* [r1|r2], [r1] preferred *)
| RStar (r : regex)              (* [r*], greedy *)
| RGroup (i : nat) (r : regex).  (* capturing group number [i + 1] *)

(** What the groups captured so far, indexed by group. *)
Abbreviation captures := (list (option string)).

(** A match: the input left after it, and the captures. *)
Definition mres : Type := option (string * captures).

(** [rmatch r s c k]: match [r] at the start of [s], then hand the rest of
    the input to [k]; alternatives are tried in priority order until [k]
    accepts.  An iteration of a star has to consume input. *)
Fixpoint rmatch (r : regex) (s : string) (c : captures)
    (k : string -> captures -> mres) {struct r} : mres :=
  match r with
  | RFail => None
  | REmpty => k s c
  | RRune cl =>
      let '(rn, w) := DecodeRuneInString s in
      match w with
      | 0 => None
      | S _ => if class_match cl rn then k (sdrop w s) c else None
      end
  | RSeq r1 r2 => rmatch r1 s c (fun s1 c1 => rmatch r2 s1 c1 k)
  | RAlt r1 r2 =>
      match rmatch r1 s c k with
      | Some m => Some m
      | None => rmatch r2 s c k
      end
  | RStar r1 =>
      (fix star (n : nat) (s : string) (c : captures) {struct n} : mres :=
         match n with
         | 0 => k s c
         | S n' =>
             match rmatch r1 s c
                     (fun s1 c1 =>
                        if Nat.ltb (String.length s1) (String.length s)
                        then star n' s1 c1 else None) with
             | Some m => Some m
             | None => k s c
             end
         end) (String.length s) s c
  | RGroup i r1 =>
      rmatch r1 s c
        (fun s1 c1 =>
           k s1 (<[i := Some (stake (String.length s - String.length s1) s)]> c1))
  end.

(** A compiled pattern: its program and [NumSubexp()]. *)
Record Regexp : Type := mkRegexp { re_prog : regex; re_numSubexp : nat }.

(** The unanchored search: the leftmost start, rune by rune, at which the
    pattern matches.  The result is [FindStringSubmatch]'s slice: the text
    of the match, then the text of each group ([""] for a group that took
    no part); the nil slice when nothing matches. *)
Fixpoint find_go (fuel : nat) (re : Regexp) (s : string) : list string :=
  match rmatch (re_prog re) s (replicate (re_numSubexp re) None)
          (fun s1 c1 => Some (s1, c1)) with
  | Some (rest, caps) =>
      stake (String.length s - String.length rest) s :: map (default "") caps
  | None =>
      match fuel with
      | 0 => []
      | S f =>
          let '(_, w) := DecodeRuneInString s in
          match w with
          | 0 => []
          | S _ => find_go f re (sdrop w s)
          end
      end
  end.

Definition FindStringSubmatch (re : Regexp) (s : string) : list string :=
  find_go (String.length s) re s.

(* --------------------------------------------------------------------- *)
(** *** Parsing a pattern                                                 *)
(* --------------------------------------------------------------------- *)

Fixpoint nullable (r : regex) : bool :=
  match r with
  | RFail => false
  | REmpty => true
  | RRune _ => false
  | RSeq r1 r2 => nullable r1 && nullable r2
  | RAlt r1 r2 => nullable r1 || nullable r2
  | RStar _ => true
  | RGroup _ r1 => nullable r1
  end.

Definition is_rep (c : ascii) : bool :=
  Ascii.eqb c "*" || Ascii.eqb c "+" || Ascii.eqb c "?".

Definition is_alnum (c : ascii) : bool :=
  let b := byteval c in
  ((48 <=? b) && (b <=? 57) || (65 <=? b) && (b <=? 90)
   || (97 <=? b) && (b <=? 122))%N.

(** Bytes that are not literals on their own in this fragment. *)
Definition is_meta (c : ascii) : bool :=
  is_rep c || Ascii.eqb c "(" || Ascii.eqb c ")" || Ascii.eqb c "|"
  || Ascii.eqb c "[" || Ascii.eqb c "]" || Ascii.eqb c "{" || Ascii.eqb c "}"
  || Ascii.eqb c "^" || Ascii.eqb c "$" || Ascii.eqb c "." || Ascii.eqb c "\".

(** A repetition operator after the atom [a], if there is one.  A second
    operator in a row (a lazy or nested repetition) and a repeated atom
    that can match the empty string are outside the fragment. *)
Definition parse_rep (a : regex) (s : string) : option (regex * string) :=
  match s with
  | String c s' =>
      if is_rep c then
        match s' with
        | String c' _ => if is_rep c' then None else
            if nullable a then None
            else if Ascii.eqb c "*" then Some (RStar a, s')
            else if Ascii.eqb c "+" then Some (RSeq a (RStar a), s')
            else Some (RAlt a REmpty, s')
        | "" =>
            if nullable a then None
            else if Ascii.eqb c "*" then Some (RStar a, s')
            else if Ascii.eqb c "+" then Some (RSeq a (RStar a), s')
            else Some (RAlt a REmpty, s')
        end
      else Some (a, s)
  | "" => Some (a, s)
  end.

(** Recursive descent; [n] counts the groups opened so far.  Each result
    is the expression, the unread pattern and the new group count. *)
Fixpoint parse_alt (fuel : nat) (s : string) (n : nat)
    : option (regex * string * nat) :=
  match fuel with
  | 0 => None
  | S f =>
      match parse_seq f s n with
      | Some (r1, String "|" s1, n1) =>
          match parse_alt f s1 n1 with
          | Some (r2, s2, n2) => Some (RAlt r1 r2, s2, n2)
          | None => None
          end
      | other => other
      end
  end
with parse_seq (fuel : nat) (s : string) (n : nat)
    : option (regex * string * nat) :=
  match fuel with
  | 0 => None
  | S f =>
      match s with
      | "" => Some (REmpty, s, n)
      | String c _ =>
          if Ascii.eqb c ")" || Ascii.eqb c "|" then Some (REmpty, s, n)
          else
            match parse_atom f s n with
            | Some (a, s1, n1) =>
                match parse_rep a s1 with
                | Some (a', s2) =>
                    match parse_seq f s2 n1 with
                    | Some (r, s3, n3) => Some (RSeq a' r, s3, n3)
                    | None => None
                    end
                | None => None
                end
            | None => None
            end
      end
  end
with parse_atom (fuel : nat) (s : string) (n : nat)
    : option (regex * string * nat) :=
  match fuel with
  | 0 => None
  | S f =>
      match s with
      | "" => None
      | String "(" (String "?" _) => None
      | String "(" s' =>
          match parse_alt f s' (S n) with
          | Some (r, String ")" s2, n2) => Some (RGroup n r, s2, n2)
          | _ => None
          end
      | String "." s' => Some (RRune CAny, s', n)
      | String "\" (String e s') =>
          if Ascii.eqb e "s" then Some (RRune CSpace, s', n)
          else if Ascii.eqb e "w" then Some (RRune CWord, s', n)
          else if Ascii.eqb e "d" then Some (RRune CDigit, s', n)
          else if (byteval e <? 128)%N && negb (is_alnum e)
          then Some (RRune (CLit e), s', n)
          else None
      | String c s' =>
          if is_meta c || negb (byteval c <? 128)%N then None
          else Some (RRune (CLit c), s', n)
      end
  end.

(** [regexp.Compile]: [None] for a pattern that is malformed or outside the
    fragment. *)
Definition Compile (pattern : string) : option Regexp :=
  match parse_alt (3 * String.length pattern + 3) pattern 0 with
  | Some (r, "", n) => Some (mkRegexp r n)
  | _ => None
  end.

(** [regexp.MustCompile] panics where [Compile] fails.  Every pattern of the
    drivers compiles ([patterns_compile] below), so that the panic, rendered
    here as the expression that matches nothing, never shows. *)
Definition MustCompile (pattern : string) : Regexp :=
  match Compile pattern with
  | Some re => re
  | None => mkRegexp RFail 0
  end.

(* ===================================================================== *)
(** ** Effects                                                            *)
(* ===================================================================== *)

(** A Go [error]: [None] is [nil], [Some msg] an error whose [Error()] is
    [msg]. *)
Definition error : Type := option string.

(** [time.Second], in nanoseconds. *)
Definition Second : Z := 1000000000.

(** [strconv.ParseFloat(s, 64)], a function of the Go library, is taken as
    given: the value and the error it returns for [s]. *)
Class Strconv : Type := ParseFloat : string -> float * error.

(** The calls by which a driver reaches outside itself, each with the type
    of what it gets back.  The session's connection, its mutex and its
    channels are the ones of the sensor the program belongs to; the
    connection is open. *)
Inductive event : Type -> Type :=
| MutexLock : event unit                     (* [lock.Lock()] *)
| MutexUnlock : event unit                   (* [lock.Unlock()] *)
| PortWrite (p : string) : event error       (* [serialConn.Write(p)] *)
| PortReadString (delim : ascii) : event (string * error)
      (* [bufio.NewReader(serialConn).ReadString(delim)] *)
| ExecOutput (cmd : string) : event (string * error)
      (* [exec.Command("sh", "-c", cmd).Output()] *)
| TimeSleep (d : Z) : event unit             (* [time.Sleep(d)] *)
| LogPrintf (format : string) (args : list string) : event unit
| SendFloat (v : float) : event unit         (* [co2Ch <- v], [flowCh <- v] *)
| SendHeartRate (v : Byte.byte) : event unit      (* [heartRateCh <- v] *)
| SendRR (v : option (list N)) : event unit. (* [rrIntervalCh <- v] *)

(** Programs: a result, or a call and what to do with its answer. *)
Inductive io (A : Type) : Type :=
| Ret (a : A)
| Vis {X : Type} (e : event X) (k : X -> io A).

Arguments Ret {A} a.
Arguments Vis {A X} e k.

Fixpoint bind {A B : Type} (m : io A) (f : A -> io B) : io B :=
  match m with
  | Ret a => f a
  | Vis e k => Vis e (fun x => bind (k x) f)
  end.

Definition call {X : Type} (e : event X) : io X := Vis e Ret.

Notation "x <- m ;; k" := (bind m (fun x => k))
  (at level 100, m at next level, right associativity).
Notation "m ;; k" := (bind m (fun _ => k))
  (at level 100, right associativity).

(** One call as it was observed: the call and its answer. *)
Inductive obs : Type :=
| OLock
| OUnlock
| OWrite (p : string) (err : error)
| OReadString (delim : ascii) (line : string) (err : error)
| OExec (cmd : string) (out : string) (err : error)
| OSleep (d : Z)
| OLog (format : string) (args : list string)
| OSendFloat (v : float)
| OSendHeartRate (v : Byte.byte)
| OSendRR (v : option (list N)).

Definition observe {X : Type} (e : event X) : X -> obs :=
  match e in event X return X -> obs with
  | MutexLock => fun _ => OLock
  | MutexUnlock => fun _ => OUnlock
  | PortWrite p => fun err => OWrite p err
  | PortReadString d => fun r => OReadString d (fst r) (snd r)
  | ExecOutput c => fun r => OExec c (fst r) (snd r)
  | TimeSleep d => fun _ => OSleep d
  | LogPrintf f a => fun _ => OLog f a
  | SendFloat v => fun _ => OSendFloat v
  | SendHeartRate v => fun _ => OSendHeartRate v
  | SendRR v => fun _ => OSendRR v
  end.

(** The outside world as a script: what each coming write, line read and
    command will answer, in order.  Past the end of a script a write
    succeeds, a read and a command fail. *)
Record World : Type := mkWorld {
  w_writes : list error;
  w_reads : list (string * error);
  w_execs : list (string * error)
}.

Definition answer {X : Type} (e : event X) (w : World) : X * World :=
  match e in event X return X * World with
  | PortWrite _ =>
      match w_writes w with
      | r :: rest => (r, mkWorld rest (w_reads w) (w_execs w))
      | [] => (None, w)
      end
  | PortReadString _ =>
      match w_reads w with
      | r :: rest => (r, mkWorld (w_writes w) rest (w_execs w))
      | [] => (("", Some "EOF"), w)
      end
  | ExecOutput _ =>
      match w_execs w with
      | r :: rest => (r, mkWorld (w_writes w) (w_reads w) rest)
      | [] => (("", Some "exit status 1"), w)
      end
  | MutexLock | MutexUnlock | TimeSleep _ | LogPrintf _ _
  | SendFloat _ | SendHeartRate _ | SendRR _ => (tt, w)
  end.

(** Running a program in a world: its result, the calls it made in order,
    and the world it leaves. *)
Fixpoint run {A : Type} (p : io A) (w : World) : A * list obs * World :=
  match p with
  | Ret a => (a, [], w)
  | Vis e k =>
      let '(x, w1) := answer e w in
      let '(a, t, w2) := run (k x) w1 in
      (a, observe e x :: t, w2)
  end.

(* ===================================================================== *)
(** ** Opening and closing: effects of a session's life cycle             *)
(* ===================================================================== *)

(** Programs over any family of calls [E]; [io] is the instance at
    [event]. *)
Inductive prog (E : Type -> Type) (A : Type) : Type :=
| PRet (a : A)
| PVis {X : Type} (e : E X) (k : X -> prog E A).

Arguments PRet {E A} a.
Arguments PVis {E A X} e k.

Fixpoint pbind {E : Type -> Type} {A B : Type} (m : prog E A) (f : A -> prog E B)
    : prog E B :=
  match m with
  | PRet a => f a
  | PVis e k => PVis e (fun x => pbind (k x) f)
  end.

Definition pcall {E : Type -> Type} {X : Type} (e : E X) : prog E X := PVis e PRet.

Notation "x <~ m ;; k" := (pbind m (fun x => k))
  (at level 100, m at next level, right associativity).
Notation "m ;;; k" := (pbind m (fun _ => k))
  (at level 100, right associativity).

(** A world for the calls of [E]: what it answers to a call, and how a
    call and its answer are recorded. *)
Class Env (E : Type -> Type) (W O : Type) : Type := {
  reply : forall X : Type, E X -> W -> X * W;
  record : forall X : Type, E X -> X -> O
}.

Fixpoint prun {E : Type -> Type} {W O : Type} `{Env E W O} {A : Type}
    (p : prog E A) (w : W) : A * list O * W :=
  match p with
  | PRet a => (a, [], w)
  | PVis e k =>
      let '(x, w1) := reply _ e w in
      let '(a, t, w2) := prun (k x) w1 in
      (a, record _ e x :: t, w2)
  end.

(** What [serial.Open] returns: a port, or an error with the nil port. *)
Inductive open_result : Type :=
| Opened (conn : nat)
| OpenFailed (err : string).

(** The calls of a wired session over its whole life: the calls of [event]
    on the connection the session holds, closing a connection, and
    opening one. *)
Inductive sys_event : Type -> Type :=
| Inner {X : Type} (e : event X) : sys_event X
| PortClose (conn : nat) : sys_event error        (* [conn.Close()] *)
| SerialOpen (port : string) (baudRate dataBits : Z) : sys_event open_result.
      (* [serial.Open(port, &serial.Mode{BaudRate, DataBits, NoParity,
         OneStopBit})] *)

Inductive sys_obs : Type :=
| SInner (o : obs)
| SClose (conn : nat) (err : error)
| SOpen (port : string) (baudRate dataBits : Z) (r : open_result).

(** The scripts of [World], and those of the closes and the opens.  Past
    the end of its script a close succeeds and an open fails. *)
Record SysWorld : Type := mkSysWorld {
  sw_inner : World;
  sw_closes : list error;
  sw_opens : list open_result
}.

Definition sys_reply {X : Type} (e : sys_event X) (sw : SysWorld) : X * SysWorld :=
  match e in sys_event X return X * SysWorld with
  | Inner e' =>
      let '(x, w) := answer e' (sw_inner sw) in
      (x, mkSysWorld w (sw_closes sw) (sw_opens sw))
  | PortClose _ =>
      match sw_closes sw with
      | r :: rest => (r, mkSysWorld (sw_inner sw) rest (sw_opens sw))
      | [] => (None, sw)
      end
  | SerialOpen _ _ _ =>
      match sw_opens sw with
      | r :: rest => (r, mkSysWorld (sw_inner sw) (sw_closes sw) rest)
      | [] => (OpenFailed "no such file or directory", sw)
      end
  end.

Definition sys_record {X : Type} (e : sys_event X) : X -> sys_obs :=
  match e in sys_event X return X -> sys_obs with
  | Inner e' => fun x => SInner (observe e' x)
  | PortClose c => fun err => SClose c err
  | SerialOpen port b d => fun r => SOpen port b d r
  end.

#[export] Instance sys_env : Env sys_event SysWorld sys_obs :=
  {| reply := @sys_reply; record := @sys_record |}.

(** A program of [io] as a part of a life-cycle program. *)
Fixpoint lift {A : Type} (p : io A) : prog sys_event A :=
  match p with
  | Ret a => PRet a
  | Vis e k => PVis (Inner e) (fun x => lift (k x))
  end.

(** [fmt.Sprintf("%d", n)]: the decimal numeral of an integer. *)
Definition itoa (n : Z) : string :=
  DecimalString.NilZero.string_of_int (Z.to_int n).

(* ===================================================================== *)
(** ** The CO2 probe: [internal/vaisala/vaisala.go]                       *)
(* ===================================================================== *)

Module Vaisala.

(** The package variables, as [init] sets them. *)
Definition vaisalaBaudRate : Z := 19200.
Definition vaisalaDefaultAddress : Z := 240.
Definition vaisalaDefaultPortFormat : string := "/dev/%s".
Definition vaisalaDataBits : Z := 8.
Definition vaisalaRegexSensorModel : string := "Device\s+:\s+(\w+)".
Definition vaisalaRegexSensorSerialNumber : string := "SNUM\s+:\s+(\w+)".
Definition vaisalaRegexSensorSoftwareVersion : string := "SW\s+:\s+(\w+)".
Definition vaisalaRegexSensorSerialUSBPrefix : string :=
  "usb-Silicon_Labs_Vaisala_USB.*->.*ttyUSB\d+".
Definition vaisalaCmdListSerialDeviceByID : string := "ls -l /dev/serial/by-id".

(** The data fields of the struct; [serialConn], [co2Ch] and [lock] are
    reached through events. *)
Record VaisalaSensor : Type := mkVaisalaSensor {
  baudRate : Z;
  dataBits : Z;
  defaultAddress : Z;
  sensorModel : string;
  sensorSerialNumber : string;
  sensorSoftwareVersion : string
}.

Definition newVaisalaSensor (baudRate defaultAddress : Z) : VaisalaSensor * error :=
  (mkVaisalaSensor vaisalaBaudRate vaisalaDataBits defaultAddress "" "" "", None).

Definition searchPorts (vs : VaisalaSensor) : io (string * error) :=
  call (LogPrintf "searching for Vaisala sensor" []);;
  r <- call (ExecOutput vaisalaCmdListSerialDeviceByID);;
  let output := fst r in
  match snd r with
  | Some err => Ret ("", Some ("failed to execute command: " +:+ err))
  | None =>
      call (LogPrintf "command output: %s" [output]);;
      call (LogPrintf "using regex pattern: %s" [vaisalaRegexSensorSerialUSBPrefix]);;
      let match_ :=
        FindStringSubmatch (MustCompile vaisalaRegexSensorSerialUSBPrefix) output in
      call (LogPrintf "regex results: %v" match_);;
      if Nat.eqb (length match_) 0 then
        call (LogPrintf "no matches found for the Vaisala sensor regex." []);;
        Ret ("", Some "vaisala sensor not found")
      else
        let notFound :=
          call (LogPrintf "vaisala sensor detected but no valid port found." []);;
          Ret ("", Some "vaisala sensor not found") in
        let parts := Fields (nth 0 match_ "") in
        if Nat.ltb 0 (length parts) then
          let sensorPath := nth (length parts - 1) parts "" in
          if ContainsByte sensorPath "/" then
            let segs := SplitByte sensorPath "/" in
            let lastPart := nth (length segs - 1) segs "" in
            call (LogPrintf "vaisalaDefaultPortFormat: %s, last part of sensorPath: %s"
                    [vaisalaDefaultPortFormat; lastPart]);;
            let port := Sprintf vaisalaDefaultPortFormat lastPart in
            call (LogPrintf "vaisala sensor found on port: %s" [port]);;
            Ret (port, None)
          else notFound
        else notFound
  end.

Definition writeCommand (vs : VaisalaSensor) (command : string) : io error :=
  err <- call (PortWrite (command +:+ CRLF));;
  match err with
  | Some e => Ret (Some ("failed to write command: " +:+ e))
  | None => Ret None
  end.

(** The method updates the struct it is called on: the result carries the
    struct as the call leaves it. *)
Definition collectProbeInfo (vs : VaisalaSensor) : io (VaisalaSensor * error) :=
  err <- writeCommand vs "?";;
  match err with
  | Some e => Ret (vs, Some e)
  | None =>
      r <- call (PortReadString LF);;
      let response := fst r in
      match snd r with
      | Some e => Ret (vs, Some ("failed to read probe info response: " +:+ e))
      | None =>
          let sensorModel_ :=
            FindStringSubmatch (MustCompile vaisalaRegexSensorModel) response in
          let vs1 :=
            if Nat.ltb 1 (length sensorModel_) then
              mkVaisalaSensor (baudRate vs) (dataBits vs) (defaultAddress vs)
                (nth 1 sensorModel_ "") (sensorSerialNumber vs)
                (sensorSoftwareVersion vs)
            else vs in
          let sensorSerialNumber_ :=
            FindStringSubmatch (MustCompile vaisalaRegexSensorSerialNumber) response in
          let vs2 :=
            if Nat.ltb 1 (length sensorSerialNumber_) then
              mkVaisalaSensor (baudRate vs1) (dataBits vs1) (defaultAddress vs1)
                (sensorModel vs1) (nth 1 sensorSerialNumber_ "")
                (sensorSoftwareVersion vs1)
            else vs1 in
          let sensorSoftwareVersion_ :=
            FindStringSubmatch (MustCompile vaisalaRegexSensorSoftwareVersion) response in
          let vs3 :=
            if Nat.ltb 1 (length sensorSoftwareVersion_) then
              mkVaisalaSensor (baudRate vs2) (dataBits vs2) (defaultAddress vs2)
                (sensorModel vs2) (sensorSerialNumber vs2)
                (nth 1 sensorSoftwareVersion_ "")
            else vs2 in
          Ret (vs3, None)
      end
  end.

Section WithStrconv.
Context `{Strconv}.

(** What [readCO2] makes of the line it has read. *)
Definition parseCO2 (response : string) : float * error :=
  let parts := SplitByte response "=" in
  if Nat.ltb (length parts) 2 then
    (0%float, Some "invalid response format")
  else
    let co2Value := TrimSpace (nth 1 parts "") in
    let co2Parts := Fields co2Value in
    if Nat.ltb (length co2Parts) 1 then
      (0%float, Some "failed to parse CO2 value from response")
    else
      match ParseFloat (nth 0 co2Parts "") with
      | (_, Some err) => (0%float, Some ("failed to parse CO2 value: " +:+ err))
      | (co2, None) => (co2, None)
      end.

(** The body of [readCO2] between taking the lock and the deferred
    release. *)
Definition readCO2_locked (vs : VaisalaSensor) : io (float * error) :=
  err <- writeCommand vs "send";;
  match err with
  | Some e => Ret (0%float, Some e)
  | None =>
      r <- call (PortReadString LF);;
      match snd r with
      | Some e => Ret (0%float, Some ("failed to read response: " +:+ e))
      | None => Ret (parseCO2 (fst r))
      end
  end.

Definition readCO2 (vs : VaisalaSensor) : io (float * error) :=
  call MutexLock;;
  r <- readCO2_locked vs;;
  call MutexUnlock;;
  Ret r.

(** The [for { ... }] of [startVaisalaSensor] has no exit; [n] is the
    number of its iterations that are looked at. *)
Fixpoint startVaisalaSensor (n : nat) (vs : VaisalaSensor) : io unit :=
  match n with
  | 0 => Ret tt
  | S n' =>
      r <- readCO2 vs;;
      match snd r with
      | Some err =>
          call (LogPrintf "failed to read CO2: %v" [err]);;
          call (TimeSleep Second);;
          startVaisalaSensor n' vs
      | None =>
          call (SendFloat (fst r));;
          startVaisalaSensor n' vs
      end
  end.

End WithStrconv.

(** [serialConn] is the connection the struct holds when the method is
    called ([None] for nil); the result carries the struct and the
    connection as the call leaves them. *)
Definition openSerialConnection (vs : VaisalaSensor) (serialConn : option nat)
    : prog sys_event (VaisalaSensor * option nat * error) :=
  match serialConn with
   | Some conn =>
       err <~ pcall (PortClose conn) ;;
       match err with
       | Some e =>
           pcall (Inner (LogPrintf "Error closing existing serial connection: %v" [e]))
       | None => PRet tt
       end
   | None => PRet tt
   end ;;;
  r <~ lift (searchPorts vs) ;;
  match snd r with
  | Some err =>
      PRet (vs, serialConn, Some ("failed to find Vaisala sensor: " +:+ err))
  | None =>
      let port := fst r in
      pcall (Inner (LogPrintf "found Vaisala sensor at port: %s" [port])) ;;;
      o <~ pcall (SerialOpen port (baudRate vs) (dataBits vs)) ;;
      match o with
      | OpenFailed err =>
          PRet (vs, None, Some ("failed to open serial connection: " +:+ err))
      | Opened conn =>
          pcall (Inner (LogPrintf "opened serial connection" [])) ;;;
          werr <~ pcall (Inner (PortWrite ("open " +:+ itoa (defaultAddress vs) +:+ CRLF))) ;;
          match werr with
          | Some err =>
              PRet (vs, Some conn, Some ("failed to write open command: " +:+ err))
          | None =>
              c <~ lift (collectProbeInfo vs) ;;
              match snd c with
              | Some err =>
                  PRet (fst c, Some conn,
                        Some ("failed to collect probe information: " +:+ err))
              | None => PRet (fst c, Some conn, None)
              end
          end
      end
  end.

(** [close()], on the connection the struct holds. *)
Definition close (conn : nat) : prog sys_event error := pcall (PortClose conn).

End Vaisala.

(* ===================================================================== *)
(** ** The air-flow meter: [internal/kurz/kurz.go]                        *)
(* ===================================================================== *)

Module Kurz.

(** The package variables, as [init] sets them. *)
Definition kurzBaudRate : Z := 9600.
Definition kurzDataBits : Z := 8.
Definition kurzCmdListSerialDeviceByID : string := "ls -l /dev/serial/by-id".
Definition kurzRegexSensorSerialUSBPrefix : string := "usb-FTDI_.*_USB.*->.*ttyUSB\d+".
Definition kurzDefaultPortFormat : string := "/dev/%s".
Definition kurzRegexSensorModel : string := "Device\s*:\s*\w*".
Definition kurzRegexSensorSerialNumber : string := "SNUM\s*:\s*\w*".
Definition kurzRegexSensorSoftwareVersion : string := "SW version\s*:\s*\d.\d.\d".

(** The data fields of the struct; [serialConn], [flowCh] and [lock] are
    reached through events. *)
Record KurzSensor : Type := mkKurzSensor {
  baudRate : Z;
  dataBits : Z;
  sensorModel : string;
  sensorSerialNumber : string;
  sensorSoftwareVersion : string;
  constantFlowRateSCFM : float
}.

Definition searchPorts (ks : KurzSensor) : io (string * error) :=
  call (LogPrintf "searching for Kurz sensor" []);;
  r <- call (ExecOutput kurzCmdListSerialDeviceByID);;
  let output := fst r in
  match snd r with
  | Some err => Ret ("", Some ("failed to execute command: " +:+ err))
  | None =>
      call (LogPrintf "command output: %s" [output]);;
      call (LogPrintf "using regex pattern: %s" [kurzRegexSensorSerialUSBPrefix]);;
      let match_ :=
        FindStringSubmatch (MustCompile kurzRegexSensorSerialUSBPrefix) output in
      call (LogPrintf "regex results: %v" match_);;
      if Nat.eqb (length match_) 0 then
        call (LogPrintf "no matches found for the Kurz sensor regex." []);;
        Ret ("", Some "kurz sensor not found")
      else
        let notFound :=
          call (LogPrintf "kurz sensor detected but no valid port found." []);;
          Ret ("", Some "kurz sensor not found") in
        let parts := Fields (nth 0 match_ "") in
        if Nat.ltb 0 (length parts) then
          let sensorPath := nth (length parts - 1) parts "" in
          if ContainsByte sensorPath "/" then
            let segs := SplitByte sensorPath "/" in
            let lastPart := nth (length segs - 1) segs "" in
            call (LogPrintf "kurzDefaultPortFormat: %s, last part of sensorPath: %s"
                    [kurzDefaultPortFormat; lastPart]);;
            let port := Sprintf kurzDefaultPortFormat lastPart in
            call (LogPrintf "kurz sensor found on port: %s" [port]);;
            Ret (port, None)
          else notFound
        else notFound
  end.

Definition writeCommand (ks : KurzSensor) (command : string) : io error :=
  err <- call (PortWrite command);;
  match err with
  | Some e => Ret (Some ("failed to write command: " +:+ e))
  | None => Ret None
  end.

(** The method updates the struct it is called on: the result carries the
    struct as the call leaves it. *)
Definition collectSensorInfo (ks : KurzSensor) : io (KurzSensor * error) :=
  err <- writeCommand ks "?";;
  match err with
  | Some e => Ret (ks, Some e)
  | None =>
      r <- call (PortReadString LF);;
      let response := fst r in
      match snd r with
      | Some e => Ret (ks, Some ("failed to read sensor info response: " +:+ e))
      | None =>
          let sensorModel_ :=
            FindStringSubmatch (MustCompile kurzRegexSensorModel) response in
          let ks1 :=
            if Nat.ltb 1 (length sensorModel_) then
              mkKurzSensor (baudRate ks) (dataBits ks)
                (nth 1 sensorModel_ "") (sensorSerialNumber ks)
                (sensorSoftwareVersion ks) (constantFlowRateSCFM ks)
            else ks in
          let sensorSerialNumber_ :=
            FindStringSubmatch (MustCompile kurzRegexSensorSerialNumber) response in
          let ks2 :=
            if Nat.ltb 1 (length sensorSerialNumber_) then
              mkKurzSensor (baudRate ks1) (dataBits ks1)
                (sensorModel ks1) (nth 1 sensorSerialNumber_ "")
                (sensorSoftwareVersion ks1) (constantFlowRateSCFM ks1)
            else ks1 in
          let sensorSoftwareVersion_ :=
            FindStringSubmatch (MustCompile kurzRegexSensorSoftwareVersion) response in
          let ks3 :=
            if Nat.ltb 1 (length sensorSoftwareVersion_) then
              mkKurzSensor (baudRate ks2) (dataBits ks2)
                (sensorModel ks2) (sensorSerialNumber ks2)
                (nth 1 sensorSoftwareVersion_ "") (constantFlowRateSCFM ks2)
            else ks2 in
          Ret (ks3, None)
      end
  end.

Section WithStrconv.
Context `{Strconv}.

(** [getenv] is [os.Getenv]: the value of a variable of the process
    environment, the empty string when it is not set. *)
Definition newKurzSensor (getenv : string -> string) (baudRate : Z)
    : KurzSensor * error :=
  let val := getenv "CONSTANT_FLOW_RATE_SCFM" in
  let constantFlowRateSCFM :=
    if negb (String.eqb val "") then
      match ParseFloat val with
      | (rate, None) => rate
      | (_, Some _) => 0%float
      end
    else 0%float in
  (mkKurzSensor baudRate kurzDataBits "" "" "" constantFlowRateSCFM, None).

(** What [readFlowRate] makes of the line it has read. *)
Definition parseFlowRate (response : string) : float * error :=
  let parts := Fields response in
  if Nat.ltb (length parts) 4 then
    (0%float, Some "invalid response format")
  else
    match ParseFloat (nth 3 parts "") with
    | (_, Some err) => (0%float, Some ("failed to parse flow rate: " +:+ err))
    | (flowRate, None) => (flowRate, None)
    end.

(** The body of [readFlowRate] between taking the lock and the deferred
    release. *)
Definition readFlowRate_locked (ks : KurzSensor) : io (float * error) :=
  err <- writeCommand ks "x";;
  match err with
  | Some e => Ret (0%float, Some e)
  | None =>
      r <- call (PortReadString LF);;
      match snd r with
      | Some e => Ret (0%float, Some ("failed to read response: " +:+ e))
      | None => Ret (parseFlowRate (fst r))
      end
  end.

Definition readFlowRate (ks : KurzSensor) : io (float * error) :=
  if negb (PrimFloat.eqb (constantFlowRateSCFM ks) 0%float) then
    Ret (constantFlowRateSCFM ks, None)
  else
    call MutexLock;;
    r <- readFlowRate_locked ks;;
    call MutexUnlock;;
    Ret r.

(** The [for { ... }] of [startKurzSensor] has no exit; [n] is the number
    of its iterations that are looked at. *)
Fixpoint startKurzSensor (n : nat) (ks : KurzSensor) : io unit :=
  match n with
  | 0 => Ret tt
  | S n' =>
      r <- readFlowRate ks;;
      match snd r with
      | Some err =>
          call (LogPrintf "failed to read flow rate: %v" [err]);;
          call (TimeSleep Second);;
          startKurzSensor n' ks
      | None =>
          call (SendFloat (fst r));;
          startKurzSensor n' ks
      end
  end.

End WithStrconv.

(** [serialConn] is the connection the struct holds when the method is
    called ([None] for nil); the result carries the struct and the
    connection as the call leaves them. *)
Definition openSerialConnection (ks : KurzSensor) (serialConn : option nat)
    : prog sys_event (KurzSensor * option nat * error) :=
  match serialConn with
   | Some conn =>
       err <~ pcall (PortClose conn) ;;
       match err with
       | Some e =>
           pcall (Inner (LogPrintf "Error closing existing serial connection: %v" [e]))
       | None => PRet tt
       end
   | None => PRet tt
   end ;;;
  r <~ lift (searchPorts ks) ;;
  match snd r with
  | Some err =>
      PRet (ks, serialConn, Some ("failed to find Kurz sensor: " +:+ err))
  | None =>
      let port := fst r in
      pcall (Inner (LogPrintf "found Kurz sensor at port: %s" [port])) ;;;
      o <~ pcall (SerialOpen port (baudRate ks) (dataBits ks)) ;;
      match o with
      | OpenFailed err =>
          PRet (ks, None, Some ("failed to open serial connection: " +:+ err))
      | Opened conn =>
          pcall (Inner (LogPrintf "opened serial connection" [])) ;;;
          c <~ lift (collectSensorInfo ks) ;;
          match snd c with
          | Some err =>
              PRet (fst c, Some conn,
                    Some ("failed to collect sensor information: " +:+ err))
          | None => PRet (fst c, Some conn, None)
          end
      end
  end.

(** [close()], on the connection the struct holds. *)
Definition close (conn : nat) : prog sys_event error := pcall (PortClose conn).

End Kurz.

(* ===================================================================== *)
(** ** The heart-rate strap: the [polar] package                          *)
(* ===================================================================== *)

Module Polar.

(** [binary.LittleEndian.Uint16(b)]: the first two bytes of [b], low byte
    first.  It is only called on a slice of two bytes or more. *)
Definition Uint16 (b : list Byte.byte) : N :=
  match b with
  | b0 :: b1 :: _ => N.lor (Byte.to_N b0) (N.shiftl (Byte.to_N b1) 8)
  | _ => 0%N
  end.

(** The [for i := 2; i < len(buf); i += 2] loop of the callback, from
    index [i] on; [fuel] bounds the number of rounds. *)
Fixpoint rr_loop (fuel i : nat) (buf : list Byte.byte) (rrIntervals : list N)
    : list N :=
  match fuel with
  | 0 => rrIntervals
  | S fuel' =>
      if Nat.ltb i (length buf) then
        if Nat.ltb (i + 1) (length buf) then
          rr_loop fuel' (i + 2) buf (rrIntervals ++ [Uint16 (drop i buf)])
        else rr_loop fuel' (i + 2) buf rrIntervals
      else rrIntervals
  end.

(** The function that [startPolarSensor] hands to [EnableNotifications]. *)
Definition notification (buf : list Byte.byte) : io unit :=
  if Nat.ltb 1 (length buf) then
    let heartRate := nth 1 buf Byte.x00 in
    call (SendHeartRate heartRate);;
    let flags := nth 0 buf Byte.x00 in
    if negb (N.eqb (N.land (Byte.to_N flags) 16) 0) && Nat.leb 4 (length buf) then
      let rrIntervals := rr_loop (length buf) 2 buf [] in
      call (SendRR (Some rrIntervals))
    else
      call (SendRR None)
  else Ret tt.

(** The calls on the Bluetooth stack; a device, a service and a
    characteristic are named by numbers. *)
Inductive bt_event : Type -> Type :=
| Connect (address : string) : bt_event (nat * error)
      (* [adapter.Connect(address, bluetooth.ConnectionParams{})] *)
| DiscoverServices (device : nat) : bt_event (list nat * error)
      (* [device.DiscoverServices] for [ServiceUUIDHeartRate] *)
| DiscoverCharacteristics (srvc : nat) : bt_event (list nat * error)
      (* [srvc.DiscoverCharacteristics] for
         [CharacteristicUUIDHeartRateMeasurement] *)
| EnableNotifications (char : nat) : bt_event error
      (* [char.EnableNotifications(notification)] *)
| Disconnect (device : nat) : bt_event error.

Inductive bt_obs : Type :=
| BConnect (address : string) (device : nat) (err : error)
| BServices (device : nat) (srvcs : list nat) (err : error)
| BCharacteristics (srvc : nat) (chars : list nat) (err : error)
| BEnable (char : nat) (err : error)
| BDisconnect (device : nat) (err : error).

(** What each coming call on the stack will answer.  Past the end of its
    script a call fails, a disconnection succeeds. *)
Record BtWorld : Type := mkBtWorld {
  bt_connects : list (nat * error);
  bt_services : list (list nat * error);
  bt_chars : list (list nat * error);
  bt_enables : list error;
  bt_disconnects : list error
}.

Definition bt_reply {X : Type} (e : bt_event X) (w : BtWorld) : X * BtWorld :=
  match e in bt_event X return X * BtWorld with
  | Connect _ =>
      match bt_connects w with
      | r :: rest =>
          (r, mkBtWorld rest (bt_services w) (bt_chars w) (bt_enables w)
                (bt_disconnects w))
      | [] => ((0, Some "timeout on Connect"), w)
      end
  | DiscoverServices _ =>
      match bt_services w with
      | r :: rest =>
          (r, mkBtWorld (bt_connects w) rest (bt_chars w) (bt_enables w)
                (bt_disconnects w))
      | [] => (([], Some "timeout on DiscoverServices"), w)
      end
  | DiscoverCharacteristics _ =>
      match bt_chars w with
      | r :: rest =>
          (r, mkBtWorld (bt_connects w) (bt_services w) rest (bt_enables w)
                (bt_disconnects w))
      | [] => (([], Some "timeout on DiscoverCharacteristics"), w)
      end
  | EnableNotifications _ =>
      match bt_enables w with
      | r :: rest =>
          (r, mkBtWorld (bt_connects w) (bt_services w) (bt_chars w) rest
                (bt_disconnects w))
      | [] => (Some "timeout on EnableNotifications", w)
      end
  | Disconnect _ =>
      match bt_disconnects w with
      | r :: rest =>
          (r, mkBtWorld (bt_connects w) (bt_services w) (bt_chars w)
                (bt_enables w) rest)
      | [] => (None, w)
      end
  end.

Definition bt_record {X : Type} (e : bt_event X) : X -> bt_obs :=
  match e in bt_event X return X -> bt_obs with
  | Connect a => fun r => BConnect a (fst r) (snd r)
  | DiscoverServices d => fun r => BServices d (fst r) (snd r)
  | DiscoverCharacteristics s => fun r => BCharacteristics s (fst r) (snd r)
  | EnableNotifications c => fun err => BEnable c err
  | Disconnect d => fun err => BDisconnect d err
  end.

#[global] Instance bt_env : Env bt_event BtWorld bt_obs :=
  {| reply := @bt_reply; record := @bt_record |}.

(** The device of the new sensor ([None] with the nil sensor). *)
Definition newPolarSensor (address : string) : prog bt_event (option nat * error) :=
  r <~ pcall (Connect address) ;;
  match snd r with
  | Some err => PRet (None, Some ("failed to connect to Polar sensor: " +:+ err))
  | None => PRet (Some (fst r), None)
  end.

Definition startPolarSensor (device : nat) : prog bt_event error :=
  r <~ pcall (DiscoverServices device) ;;
  let srvcs := fst r in
  match snd r with
  | Some err => PRet (Some ("failed to discover heart rate service: " +:+ err))
  | None =>
      if Nat.eqb (length srvcs) 0 then
        PRet (Some "could not find heart rate service")
      else
        let srvc := nth 0 srvcs 0 in
        r' <~ pcall (DiscoverCharacteristics srvc) ;;
        let chars := fst r' in
        match snd r' with
        | Some err =>
            PRet (Some ("failed to discover heart rate characteristic: " +:+ err))
        | None =>
            if Nat.eqb (length chars) 0 then
              PRet (Some "could not find heart rate characteristic")
            else
              let char := nth 0 chars 0 in
              pcall (EnableNotifications char) ;;;
              PRet None
        end
  end.

(** [close()]. *)
Definition close (device : nat) : prog bt_event error := pcall (Disconnect device).

End Polar.

(* ===================================================================== *)
(** ** Goroutines that share a session                                    *)
(* ===================================================================== *)

(** What a call does to the session's mutex and connection. *)
Inductive kind : Type := KLock | KUnlock | KWrite | KRead | KOther.

Definition event_kind {X : Type} (e : event X) : kind :=
  match e with
  | MutexLock => KLock
  | MutexUnlock => KUnlock
  | PortWrite _ => KWrite
  | PortReadString _ => KRead
  | _ => KOther
  end.

(** Goroutines run one call at a time, in any order.  [holder] is the
    goroutine inside [lock], if any; [ctrace] is what was called so far, by
    whom, oldest first. *)
Record conc (A : Type) : Type := mkConc {
  holder : option nat;
  threads : list (io A);
  ctrace : list (nat * obs)
}.

Arguments mkConc {A} holder threads ctrace.
Arguments holder {A} c.
Arguments threads {A} c.
Arguments ctrace {A} c.

(** [sync.Mutex]: [Lock] waits until the mutex is free, [Unlock] frees a
    mutex that is taken; no other call waits. *)
Definition enabled {X : Type} (h : option nat) (e : event X) : Prop :=
  match event_kind e with
  | KLock => h = None
  | KUnlock => h <> None
  | _ => True
  end.

Definition next_holder {X : Type} (i : nat) (e : event X) (h : option nat)
    : option nat :=
  match event_kind e with
  | KLock => Some i
  | KUnlock => None
  | _ => h
  end.

Inductive cstep {A : Type} : conc A -> conc A -> Prop :=
| cstep_call (st : conc A) (i : nat) (X : Type) (e : event X) (k : X -> io A) (x : X) :
    threads st !! i = Some (Vis e k) ->
    enabled (holder st) e ->
    cstep st (mkConc (next_holder i e (holder st))
                (<[i := k x]> (threads st))
                (ctrace st ++ [(i, observe e x)])).

(** The states a set of goroutines can reach from a free mutex. *)
Definition reachable {A : Type} (ps : list (io A)) (st : conc A) : Prop :=
  rtc cstep (mkConc None ps []) st.

(** Where a goroutine stands in a transaction: outside the lock, inside
    it, or inside it with a request written whose response is not read. *)
Inductive phase : Type := Out | Held | Await.

(** A program keeps to the transaction protocol from phase [ph] on: it
    takes the lock only from outside and releases it only from inside with
    no response awaited, it writes a request only inside the lock with no
    response awaited, it reads only inside the lock, and it ends outside
    the lock. *)
Fixpoint txn {A : Type} (ph : phase) (p : io A) : Prop :=
  match p with
  | Ret _ => ph = Out
  | Vis e k =>
      match e in event X return (X -> io A) -> Prop with
      | MutexLock => fun k => ph = Out /\ txn Held (k tt)
      | MutexUnlock => fun k => ph = Held /\ txn Out (k tt)
      | PortWrite _ => fun k =>
          ph = Held /\ txn Await (k None) /\ forall err, txn Held (k (Some err))
      | PortReadString _ => fun k => ph <> Out /\ forall r, txn Held (k r)
      | ExecOutput _ => fun k => forall r, txn ph (k r)
      | TimeSleep _ | LogPrintf _ _ | SendFloat _ | SendHeartRate _ | SendRR _ =>
          fun k => txn ph (k tt)
      end k
  end.

(** The phase of goroutine [i] when [h] holds the lock and [pend] awaits a
    response. *)
Definition phase_of (h pend : option nat) (i : nat) : phase :=
  match h with
  | Some j =>
      if Nat.eqb j i then
        match pend with
        | Some _ => Await
        | None => Held
        end
      else Out
  | None => Out
  end.

(** Reading a trace from its start: [Some None] when no response is
    awaited at its end, [Some (Some i)] when goroutine [i] has written a
    request and not read the response, [None] when somewhere a request was
    written, or a response read by another goroutine, while a response was
    awaited. *)
Fixpoint scan (pend : option nat) (t : list (nat * obs)) : option (option nat) :=
  match t with
  | [] => Some pend
  | (j, o) :: t' =>
      match o with
      | OWrite _ err =>
          match pend with
          | Some _ => None
          | None => scan (match err with None => Some j | Some _ => None end) t'
          end
      | OReadString _ _ _ =>
          match pend with
          | Some i => if Nat.eqb i j then scan None t' else None
          | None => scan None t'
          end
      | _ => scan pend t'
      end
  end.

(* ===================================================================== *)
(** ** Reference points for the statements below                          *)
(* ===================================================================== *)

(** The RR sequence as the frame format describes it: the bytes taken two
    by two, each pair a 16-bit value with its low byte first; a last byte
    without a partner is left out. *)
Fixpoint le16_pairs (bs : list Byte.byte) : list N :=
  match bs with
  | b0 :: b1 :: rest =>
      N.lor (Byte.to_N b0) (N.shiftl (Byte.to_N b1) 8) :: le16_pairs rest
  | _ => []
  end.

(** A [Strconv] to run examples with.  It reads an optional sign and up to
    fifteen decimal digits around an optional point, as the quotient of two
    integers that binary64 holds exactly, rounded once: on these inputs the
    value is the one [strconv.ParseFloat] returns.  Any other input is
    refused as a syntax error. *)
Definition digit_val (c : ascii) : option float :=
  let b := byteval c in
  if (b =? 48)%N then Some 0%float else if (b =? 49)%N then Some 1%float
  else if (b =? 50)%N then Some 2%float else if (b =? 51)%N then Some 3%float
  else if (b =? 52)%N then Some 4%float else if (b =? 53)%N then Some 5%float
  else if (b =? 54)%N then Some 6%float else if (b =? 55)%N then Some 7%float
  else if (b =? 56)%N then Some 8%float else if (b =? 57)%N then Some 9%float
  else None.

(** [decimal_go s seen mant scale ndig]: [mant] is the integer read so far,
    [scale] the power of ten to divide it by, [ndig] the number of digits,
    [seen] whether the point was met. *)
Fixpoint decimal_go (s : string) (seen : bool) (mant scale : float) (ndig : nat)
    : option float :=
  match s with
  | "" => if Nat.ltb 0 ndig && Nat.leb ndig 15
          then Some (PrimFloat.div mant scale) else None
  | String c s' =>
      if Ascii.eqb c "." then
        if seen then None else decimal_go s' true mant scale ndig
      else
        match digit_val c with
        | Some d =>
            decimal_go s' seen (PrimFloat.add (PrimFloat.mul mant 10%float) d)
              (if seen then PrimFloat.mul scale 10%float else scale) (S ndig)
        | None => None
        end
  end.

Definition syntax_error (s : string) : string :=
  "strconv.ParseFloat: parsing " +:+ String "034" s +:+ String "034" ": invalid syntax".

Definition decimalParseFloat (s : string) : float * error :=
  let body :=
    match s with
    | String "-" s' => option_map PrimFloat.opp (decimal_go s' false 0%float 1%float 0)
    | String "+" s' => decimal_go s' false 0%float 1%float 0
    | _ => decimal_go s false 0%float 1%float 0
    end in
  match body with
  | Some v => (v, None)
  | None => (0%float, Some (syntax_error s))
  end.

Definition decimalStrconv : Strconv := decimalParseFloat.

(** The answer the next write will get. *)
Definition next_write (w : World) : error :=
  match w_writes w with
  | r :: _ => r
  | [] => None
  end.

(** The answer the next line read will get. *)
Definition next_read (w : World) : string * error :=
  match w_reads w with
  | r :: _ => r
  | [] => ("", Some "EOF")
  end.

(** The world after the next write, and after the next line read. *)
Definition after_write (w : World) : World := snd (answer (PortWrite "") w).
Definition after_read (w : World) : World := snd (answer (PortReadString LF) w).

(** A field of the identification after a response: group 1 of the match
    when the pattern matches with a group, the value it had otherwise. *)
Definition extract (pattern response old : string) : string :=
  match FindStringSubmatch (MustCompile pattern) response with
  | _ :: group1 :: _ => group1
  | _ => old
  end.

(** Discovery as the specification words it: the first match of the vendor
    pattern in the listing, its last field, and, when that field has a
    [/], its last path segment put into the port template ["/dev/%s"];
    "not found" in every other case. *)
Definition spec_discover (pattern notfound listing : string) : string * error :=
  match FindStringSubmatch (MustCompile pattern) listing with
  | [] => ("", Some notfound)
  | m0 :: _ =>
      match last (Fields m0) with
      | Some tok =>
          if ContainsByte tok "/"
          then ("/dev/" +:+ default "" (last (SplitByte tok "/")), None)
          else ("", Some notfound)
      | None => ("", Some notfound)
      end
  end.

(** [n] rounds of a polling loop around the program [read], from world
    [w]: each round runs [read]; when [read] fails the round logs the error,
    sleeps one second and the next round follows; when it succeeds the
    round sends the value and the next round follows. *)
Inductive polling (read : io (float * error)) (logfmt : string)
    : nat -> World -> list obs -> World -> Prop :=
| polling_done (w : World) : polling read logfmt 0 w [] w
| polling_retry (n : nat) (w w1 w2 : World) (v : float) (e : string)
    (t t' : list obs) :
    run read w = ((v, Some e), t, w1) ->
    polling read logfmt n w1 t' w2 ->
    polling read logfmt (S n) w (t ++ OLog logfmt [e] :: OSleep Second :: t') w2
| polling_publish (n : nat) (w w1 w2 : World) (v : float) (t t' : list obs) :
    run read w = ((v, None), t, w1) ->
    polling read logfmt n w1 t' w2 ->
    polling read logfmt (S n) w (t ++ OSendFloat v :: t') w2.

(** One round of each loop against a device that accepts the request and
    never answers. *)
Definition vaisala_silent_round : list obs :=
  [OLock; OWrite ("send" +:+ CRLF) None; OReadString LF "" (Some "EOF"); OUnlock;
   OLog "failed to read CO2: %v" ["failed to read response: EOF"];
   OSleep Second].

Definition kurz_silent_round : list obs :=
  [OLock; OWrite "x" None; OReadString LF "" (Some "EOF"); OUnlock;
   OLog "failed to read flow rate: %v" ["failed to read response: EOF"];
   OSleep Second].

(** What holds of every state that goroutines keeping to the protocol
    reach: the trace reads without a fault, a goroutine that awaits a
    response holds the lock, and each goroutine keeps to the protocol from
    the phase it is in. *)
Definition protocol_inv {A : Type} (st : conc A) (pend : option nat) : Prop :=
  scan None (ctrace st) = Some pend
  /\ (forall i, pend = Some i -> holder st = Some i)
  /\ (forall i p, threads st !! i = Some p -> txn (phase_of (holder st) pend i) p).

(** Kinds of calls in a trace. *)
Definition is_sleep (o : obs) : bool :=
  match o with OSleep _ => true | _ => false end.

Definition is_send (o : obs) : bool :=
  match o with OSendFloat _ => true | _ => false end.

Definition is_exec (o : obs) : bool :=
  match o with OExec _ _ _ => true | _ => false end.

Definition is_log (o : obs) : bool :=
  match o with OLog _ _ => true | _ => false end.

(** Reading a trace of one goroutine with the lock free ([false]) or held
    ([true]) at its start: whether the lock is held at its end, or [None]
    when somewhere the lock was taken while held or released while free,
    the serial line was used with the lock free, or the goroutine slept or
    sent on a channel with the lock held. *)
Fixpoint lock_use (held : bool) (t : list obs) : option bool :=
  match t with
  | [] => Some held
  | o :: t' =>
      match o with
      | OLock => if held then None else lock_use true t'
      | OUnlock => if held then lock_use false t' else None
      | OWrite _ _ | OReadString _ _ _ => if held then lock_use held t' else None
      | OSleep _ | OSendFloat _ => if held then None else lock_use held t'
      | _ => lock_use held t'
      end
  end.

(** The answer the next command will get. *)
Definition next_exec (w : World) : string * error :=
  match w_execs w with
  | r :: _ => r
  | [] => ("", Some "exit status 1")
  end.

(** What holds of one run [r] of [searchPorts] from world [w]: a port it
    returns is ["/dev/"] and one path segment, with an error the port is
    empty, a failure of the command is returned, the command ran once, the
    other calls are logs, and the scripts of the serial line are as they
    were. *)
Definition discovery_shape (w : World) (r : string * error * list obs * World) : Prop :=
  let port := fst (fst (fst r)) in
  let err := snd (fst (fst r)) in
  let t := snd (fst r) in
  (err = None -> exists seg, port = "/dev/" +:+ seg /\ ContainsByte seg "/" = false)
  /\ (err <> None -> port = "")
  /\ (forall e, snd (next_exec w) = Some e ->
      err = Some ("failed to execute command: " +:+ e))
  /\ length (List.filter is_exec t) = 1
  /\ Forall (fun o => is_exec o || is_log o = true) t
  /\ w_writes (snd r) = w_writes w
  /\ w_reads (snd r) = w_reads w.

(** A trace without a sleep and without a send. *)
Definition quiet (t : list obs) : Prop :=
  List.filter is_sleep t = [] /\ List.filter is_send t = [].

(** The answers the next discoveries on the Bluetooth stack will get. *)
Definition next_services (w : Polar.BtWorld) : list nat * error :=
  match Polar.bt_services w with
  | r :: _ => r
  | [] => ([], Some "timeout on DiscoverServices")
  end.

Definition next_chars (w : Polar.BtWorld) : list nat * error :=
  match Polar.bt_chars w with
  | r :: _ => r
  | [] => ([], Some "timeout on DiscoverCharacteristics")
  end.

Definition next_enable (w : Polar.BtWorld) : error :=
  match Polar.bt_enables w with
  | r :: _ => r
  | [] => Some "timeout on EnableNotifications"
  end.

(** The answer the next open will get. *)
Definition next_open (sw : SysWorld) : open_result :=
  match sw_opens sw with
  | r :: _ => r
  | [] => OpenFailed "no such file or directory"
  end.

(** The answer the next close will get. *)
Definition next_close (sw : SysWorld) : error :=
  match sw_closes sw with
  | r :: _ => r
  | [] => None
  end.

(** Kinds of calls in a life-cycle trace. *)
Definition is_close (o : sys_obs) : bool :=
  match o with SClose _ _ => true | _ => false end.

Definition is_open (o : sys_obs) : bool :=
  match o with SOpen _ _ _ _ => true | _ => false end.

(** The payloads written on the serial line, in order. *)
Fixpoint written (t : list sys_obs) : list string :=
  match t with
  | SInner (OWrite p _) :: t' => p :: written t'
  | _ :: t' => written t'
  | [] => []
  end.

(** Taking or releasing the session lock. *)
Definition is_lock (o : sys_obs) : bool :=
  match o with
  | SInner OLock | SInner OUnlock => true
  | _ => false
  end.

(** A continuation that keeps the number of capture slots. *)
Definition keeps_slots (n : nat) (k : string -> captures -> mres) : Prop :=
  forall s c rest caps, length c = n -> k s c = Some (rest, caps) -> length caps = n.

(** Unfolding a program call by call, leaving the string functions
    alone. *)
Ltac run_calls :=
  cbn [run answer bind call fst snd observe w_writes w_reads w_execs].

(* ===================================================================== *)
(** * Properties                                                          *)
(* ===================================================================== *)

(** ** Strings *)

Lemma append_nil_r (s : string) : s +:+ "" = s.
Proof. induction s as [|c s IH]; simpl; [reflexivity | now rewrite IH]. Qed.

Lemma Sprintf_dev (a : string) : Sprintf "/dev/%s" a = "/dev/" +:+ a.
Proof. unfold Sprintf; simpl. now rewrite append_nil_r. Qed.

Lemma SplitByte_go_nonempty (s : string) (sep : ascii) (cur : string) :
  SplitByte_go s sep cur <> [].
Proof.
  revert cur; induction s as [|c s IH]; intros cur; simpl; [discriminate|].
  destruct (Ascii.eqb c sep); [discriminate | apply IH].
Qed.

(** A split has a second piece exactly when the separator occurs. *)
Lemma SplitByte_short (s : string) (sep : ascii) :
  Nat.ltb (length (SplitByte s sep)) 2 = negb (ContainsByte s sep).
Proof.
  unfold SplitByte. generalize "" as cur.
  induction s as [|c s IH]; intros cur; simpl; [reflexivity|].
  destruct (Ascii.eqb c sep); simpl.
  - pose proof (SplitByte_go_nonempty s sep "") as Hne.
    destruct (SplitByte_go s sep ""); [contradiction | reflexivity].
  - apply IH.
Qed.

(** The library functions on sample inputs. *)
Example Fields_sample :
  Fields (" a  b" +:+ String LF "c ") = ["a"; "b"; "c"].
Proof. reflexivity. Qed.

Example Fields_nbsp : Fields (String "194" (String "160" "a")) = ["a"].
Proof. reflexivity. Qed.

Example TrimSpace_sample :
  TrimSpace ("  412.35 ppm" +:+ String LF "") = "412.35 ppm".
Proof. reflexivity. Qed.

Example SplitByte_sample :
  SplitByte "CO2=  412.35 ppm" "=" = ["CO2"; "  412.35 ppm"].
Proof. reflexivity. Qed.

Example SplitByte_empty : SplitByte "" "=" = [""].
Proof. reflexivity. Qed.

Example Sprintf_no_verb :
  Sprintf "/dev/{}" "ttyUSB0" = "/dev/{}%!(EXTRA string=ttyUSB0)".
Proof. reflexivity. Qed.

Example FindStringSubmatch_group :
  FindStringSubmatch (MustCompile "Device\s+:\s+(\w+)") "xx Device  :  GMP252 yy"
  = ["Device  :  GMP252"; "GMP252"].
Proof. vm_compute. reflexivity. Qed.

Example FindStringSubmatch_no_group :
  FindStringSubmatch (MustCompile "Device\s*:\s*\w*") "xx Device  :  GMP252 yy"
  = ["Device  :  GMP252"].
Proof. vm_compute. reflexivity. Qed.

Example FindStringSubmatch_optional_group :
  FindStringSubmatch (MustCompile "a(b|c)?(d+)") "xxaddd" = ["addd"; ""; "ddd"].
Proof. vm_compute. reflexivity. Qed.

Example FindStringSubmatch_none :
  FindStringSubmatch (MustCompile "a(b|c)?(d+)") "xxa" = [].
Proof. vm_compute. reflexivity. Qed.

Example decimalParseFloat_sample :
  decimalParseFloat "412.35" = (0x1.9c5999999999ap+8%float, None).
Proof. vm_compute. reflexivity. Qed.

(** ** Running programs *)

Lemma run_bind {A B : Type} (m : io A) (f : A -> io B) (w : World) :
  run (bind m f) w =
  let '(a, t1, w1) := run m w in
  let '(b, t2, w2) := run (f a) w1 in
  (b, t1 ++ t2, w2).
Proof.
  revert w; induction m as [a | X e k IH]; intros w; simpl.
  - destruct (run (f a) w) as [[b t2] w2]; reflexivity.
  - destruct (answer e w) as [x w1]. rewrite IH.
    destruct (run (k x) w1) as [[a t1] w1'].
    destruct (run (f a) w1') as [[b t2] w2]; reflexivity.
Qed.

(** ** Writing a command *)

(** C1, as the code has it: the CO2 driver writes the command followed by
    carriage return and line feed, in one write; the flow-rate driver writes
    the command bytes alone, with no terminator.  Either returns an error
    exactly when that write fails. *)
Theorem writeCommand_writes (vs : Vaisala.VaisalaSensor) (ks : Kurz.KurzSensor)
    (command : string) (w : World) :
  (exists r w',
      run (Vaisala.writeCommand vs command) w
      = (r, [OWrite (command +:+ CRLF) (next_write w)], w')
      /\ (r <> None <-> next_write w <> None))
  /\ (exists r w',
      run (Kurz.writeCommand ks command) w
      = (r, [OWrite command (next_write w)], w')
      /\ (r <> None <-> next_write w <> None)).
Proof.
  split.
  - unfold Vaisala.writeCommand, call, next_write; simpl.
    destruct (w_writes w) as [|[e|] rest]; simpl;
      eexists _, _; (split; [reflexivity|]); split; congruence.
  - unfold Kurz.writeCommand, call, next_write; simpl.
    destruct (w_writes w) as [|[e|] rest]; simpl;
      eexists _, _; (split; [reflexivity|]); split; congruence.
Qed.

(** C1 as stated fails on the flow-rate driver: its command ["x"] goes out
    as the single byte ["x"], not as ["x\r\n"]. *)
Lemma kurz_writeCommand_no_terminator :
  let ks := Kurz.mkKurzSensor 9600 8 "" "" "" 0%float in
  snd (fst (run (Kurz.writeCommand ks "x") (mkWorld [] [] []))) = [OWrite "x" None]
  /\ [OWrite "x" None] <> [OWrite ("x" +:+ CRLF) None].
Proof. split; [reflexivity | discriminate]. Qed.

(** ** The flow-rate override *)

Section Override.
Context `{Strconv}.

Lemma newKurzSensor_override (getenv : string -> string) (baudRate : Z) (rate : float) :
  getenv "CONSTANT_FLOW_RATE_SCFM" <> "" ->
  ParseFloat (getenv "CONSTANT_FLOW_RATE_SCFM") = (rate, None) ->
  Kurz.constantFlowRateSCFM (fst (Kurz.newKurzSensor getenv baudRate)) = rate.
Proof.
  intros Hset Hparse. unfold Kurz.newKurzSensor; simpl.
  destruct (String.eqb_spec (getenv "CONSTANT_FLOW_RATE_SCFM") "") as [E|_];
    [contradiction|]. simpl. now rewrite Hparse.
Qed.

Lemma startKurzSensor_override (ks : Kurz.KurzSensor) (n : nat) (w : World) :
  PrimFloat.eqb (Kurz.constantFlowRateSCFM ks) 0%float = false ->
  run (Kurz.startKurzSensor n ks) w
  = (tt, replicate n (OSendFloat (Kurz.constantFlowRateSCFM ks)), w).
Proof.
  intros Hnz. induction n as [|n IH]; simpl; [reflexivity|].
  unfold Kurz.readFlowRate at 1. rewrite Hnz; simpl. now rewrite IH.
Qed.

(** C2: in a session whose override is not zero, [readFlowRate] is the
    program that returns the override at once: it makes no call at all
    (no lock, no write, no read), in whatever world and however often it
    is called; the polling loop then only publishes the override. *)
Theorem readFlowRate_override (ks : Kurz.KurzSensor) :
  PrimFloat.eqb (Kurz.constantFlowRateSCFM ks) 0%float = false ->
  Kurz.readFlowRate ks = Ret (Kurz.constantFlowRateSCFM ks, None)
  /\ (forall w : World,
        run (Kurz.readFlowRate ks) w = ((Kurz.constantFlowRateSCFM ks, None), [], w))
  /\ (forall (n : nat) (w : World),
        run (Kurz.startKurzSensor n ks) w
        = (tt, replicate n (OSendFloat (Kurz.constantFlowRateSCFM ks)), w)).
Proof.
  intros Hnz.
  assert (E : Kurz.readFlowRate ks = Ret (Kurz.constantFlowRateSCFM ks, None)).
  { unfold Kurz.readFlowRate. now rewrite Hnz. }
  split; [exact E|]. split.
  - intros w. now rewrite E.
  - intros n w. now apply startKurzSensor_override.
Qed.

End Override.

(** C2 at a session built with [CONSTANT_FLOW_RATE_SCFM=12.5]. *)
Lemma readFlowRate_override_witness :
  let ks := fst (@Kurz.newKurzSensor decimalStrconv
                   (fun name => if String.eqb name "CONSTANT_FLOW_RATE_SCFM"
                                then "12.5" else "") 9600) in
  Kurz.constantFlowRateSCFM ks = 12.5%float
  /\ @Kurz.readFlowRate decimalStrconv ks = Ret (12.5%float, None)
  /\ (forall w : World,
        run (@Kurz.readFlowRate decimalStrconv ks) w = ((12.5%float, None), [], w))
  /\ (forall (n : nat) (w : World),
        run (@Kurz.startKurzSensor decimalStrconv n ks) w
        = (tt, replicate n (OSendFloat 12.5%float), w)).
Proof.
  split; [reflexivity|].
  exact (@readFlowRate_override decimalStrconv
           (fst (@Kurz.newKurzSensor decimalStrconv
                   (fun name => if String.eqb name "CONSTANT_FLOW_RATE_SCFM"
                                then "12.5" else "") 9600))
           eq_refl).
Defined.

(** ** The heart-rate notification *)

Lemma flag_bit4 (b : Byte.byte) :
  negb (N.eqb (N.land (Byte.to_N b) 16) 0) = N.testbit (Byte.to_N b) 4.
Proof. destruct b; reflexivity. Qed.

(** The index loop of the callback collects the pairs of the frame format. *)
Lemma rr_loop_pairs (buf : list Byte.byte) (fuel i : nat) (acc : list N) :
  length buf <= i + 2 * fuel ->
  Polar.rr_loop fuel i buf acc = acc ++ le16_pairs (drop i buf).
Proof.
  revert i acc; induction fuel as [|fuel IH]; intros i acc Hfuel; simpl.
  - rewrite drop_ge by lia. simpl. now rewrite app_nil_r.
  - destruct (Nat.ltb_spec i (length buf)) as [Hi|Hi].
    + pose proof (length_drop buf i) as Hlen.
      pose proof (drop_drop buf 2 i) as Hdd.
      destruct (Nat.ltb_spec (i + 1) (length buf)) as [Hi1|Hi1].
      * rewrite IH by lia. rewrite <- Hdd.
        destruct (drop i buf) as [|b0 [|b1 rest]]; simpl in *; try lia.
        now rewrite <- app_assoc.
      * rewrite IH by lia. rewrite (drop_ge buf (i + 2)) by lia.
        destruct (drop i buf) as [|b0 [|b1 rest]]; simpl in *; try lia; reflexivity.
    + rewrite drop_ge by lia. simpl. now rewrite app_nil_r.
Qed.

(** C3: a frame of one byte or none publishes nothing.  A longer frame
    publishes byte 1 as the heart rate and then, as a second event, the RR
    sequence: when bit 4 of byte 0 is set and the frame has four bytes or
    more, the little-endian 16-bit values read two bytes at a time from
    byte 2 on (a last odd byte is dropped); the absent value (nil)
    otherwise. *)
Theorem notification_decodes (buf : list Byte.byte) (w : World) :
  run (Polar.notification buf) w =
  (tt,
   if Nat.leb (length buf) 1 then []
   else [OSendHeartRate (nth 1 buf Byte.x00);
         OSendRR (if N.testbit (Byte.to_N (nth 0 buf Byte.x00)) 4
                     && Nat.leb 4 (length buf)
                  then Some (le16_pairs (drop 2 buf)) else None)],
   w).
Proof.
  unfold Polar.notification.
  destruct (Nat.ltb_spec 1 (length buf)) as [Hlen|Hlen].
  - destruct (Nat.leb_spec (length buf) 1) as [Hle|_]; [lia|].
    rewrite flag_bit4.
    destruct (N.testbit (Byte.to_N (nth 0 buf Byte.x00)) 4 && Nat.leb 4 (length buf));
      simpl; [|reflexivity].
    rewrite rr_loop_pairs by lia. reflexivity.
  - destruct (Nat.leb_spec (length buf) 1) as [_|Hgt]; [reflexivity | lia].
Qed.

(** The frames of the specification: one RR value, bit 4 clear, a one-byte
    frame; and a frame with a last odd byte. *)
Example notification_one_rr :
  snd (fst (run (Polar.notification [Byte.x10; Byte.x48; Byte.x34; Byte.x12])
              (mkWorld [] [] [])))
  = [OSendHeartRate Byte.x48; OSendRR (Some [4660%N])].
Proof. reflexivity. Qed.

Example notification_no_flag :
  snd (fst (run (Polar.notification [Byte.x00; Byte.x48; Byte.x34; Byte.x12])
              (mkWorld [] [] [])))
  = [OSendHeartRate Byte.x48; OSendRR None].
Proof. reflexivity. Qed.

Example notification_short :
  snd (fst (run (Polar.notification [Byte.x10]) (mkWorld [] [] []))) = [].
Proof. reflexivity. Qed.

Example notification_odd_byte :
  snd (fst (run (Polar.notification
                   [Byte.x10; Byte.x48; Byte.x34; Byte.x12; Byte.xff])
              (mkWorld [] [] [])))
  = [OSendHeartRate Byte.x48; OSendRR (Some [4660%N])].
Proof. reflexivity. Qed.

(** ** Read transactions *)

Section Transactions.
Context `{Strconv}.

(** One call of [readCO2], in any world. *)
Lemma readCO2_run (vs : Vaisala.VaisalaSensor) (w : World) :
  run (Vaisala.readCO2 vs) w =
  match next_write w with
  | Some e =>
      ((0%float, Some ("failed to write command: " +:+ e)),
       [OLock; OWrite ("send" +:+ CRLF) (Some e); OUnlock], after_write w)
  | None =>
      match next_read (after_write w) with
      | (line, Some e) =>
          ((0%float, Some ("failed to read response: " +:+ e)),
           [OLock; OWrite ("send" +:+ CRLF) None; OReadString LF line (Some e);
            OUnlock], after_read (after_write w))
      | (line, None) =>
          (Vaisala.parseCO2 line,
           [OLock; OWrite ("send" +:+ CRLF) None; OReadString LF line None;
            OUnlock], after_read (after_write w))
      end
  end.
Proof.
  destruct w as [ws rs xs].
  unfold next_write, next_read, after_write, after_read.
  destruct ws as [|[e|] ws]; simpl; try reflexivity;
    destruct rs as [|[line [e|]] rs]; reflexivity.
Qed.

(** One call of [readFlowRate] in a session without override. *)
Lemma readFlowRate_run (ks : Kurz.KurzSensor) (w : World) :
  PrimFloat.eqb (Kurz.constantFlowRateSCFM ks) 0%float = true ->
  run (Kurz.readFlowRate ks) w =
  match next_write w with
  | Some e =>
      ((0%float, Some ("failed to write command: " +:+ e)),
       [OLock; OWrite "x" (Some e); OUnlock], after_write w)
  | None =>
      match next_read (after_write w) with
      | (line, Some e) =>
          ((0%float, Some ("failed to read response: " +:+ e)),
           [OLock; OWrite "x" None; OReadString LF line (Some e); OUnlock],
           after_read (after_write w))
      | (line, None) =>
          (Kurz.parseFlowRate line,
           [OLock; OWrite "x" None; OReadString LF line None; OUnlock],
           after_read (after_write w))
      end
  end.
Proof.
  intros Hz. unfold Kurz.readFlowRate. rewrite Hz. simpl negb. cbv iota.
  destruct w as [ws rs xs].
  unfold next_write, next_read, after_write, after_read.
  destruct ws as [|[e|] ws]; simpl; try reflexivity;
    destruct rs as [|[line [e|]] rs]; reflexivity.
Qed.

(** C4: once the request is written and a line is read, [readCO2] splits
    the line on [=]; with fewer than two pieces (a line without [=]) it
    fails with "invalid response format"; otherwise it trims the second
    piece and takes its first field: without a field it fails with "failed
    to parse CO2 value from response", with a field that [ParseFloat]
    refuses it fails with "failed to parse CO2 value: ...", and else it
    returns the value [ParseFloat] gives for that field.  For the line
    ["CO2=  412.35 ppm\n"] this is the value of ["412.35"]. *)
Theorem readCO2_parses (vs : Vaisala.VaisalaSensor) (line : string) (w : World) :
  next_write w = None ->
  next_read (after_write w) = (line, None) ->
  let result := fst (fst (run (Vaisala.readCO2 vs) w)) in
  (length (SplitByte line "=") < 2 ->
     result = (0%float, Some "invalid response format"))
  /\ (ContainsByte line "=" = false ->
     result = (0%float, Some "invalid response format"))
  /\ (forall seg0 seg1 rest, SplitByte line "=" = seg0 :: seg1 :: rest ->
       (Fields (TrimSpace seg1) = [] ->
          result = (0%float, Some "failed to parse CO2 value from response"))
       /\ (forall tok toks v e,
             Fields (TrimSpace seg1) = tok :: toks ->
             ParseFloat tok = (v, Some e) ->
             result = (0%float, Some ("failed to parse CO2 value: " +:+ e)))
       /\ (forall tok toks v,
             Fields (TrimSpace seg1) = tok :: toks ->
             ParseFloat tok = (v, None) ->
             result = (v, None)))
  /\ (line = "CO2=  412.35 ppm" +:+ String LF "" ->
      forall v, ParseFloat "412.35" = (v, None) -> result = (v, None)).
Proof.
  intros Hw Hr result. subst result.
  rewrite readCO2_run, Hw, Hr. simpl fst.
  assert (Hcases : forall seg0 seg1 rest,
             SplitByte line "=" = seg0 :: seg1 :: rest ->
             Vaisala.parseCO2 line =
             match Fields (TrimSpace seg1) with
             | [] => (0%float, Some "failed to parse CO2 value from response")
             | tok :: _ =>
                 match ParseFloat tok with
                 | (_, Some e) => (0%float, Some ("failed to parse CO2 value: " +:+ e))
                 | (v, None) => (v, None)
                 end
             end).
  { intros seg0 seg1 rest Hs. unfold Vaisala.parseCO2. rewrite Hs. simpl.
    destruct (Fields (TrimSpace seg1)) as [|tok toks]; reflexivity. }
  split; [|split; [|split]].
  - intros Hlen. unfold Vaisala.parseCO2.
    destruct (Nat.ltb_spec (length (SplitByte line "=")) 2); [reflexivity | lia].
  - intros Hno. unfold Vaisala.parseCO2.
    rewrite SplitByte_short, Hno. reflexivity.
  - intros seg0 seg1 rest Hsplit. rewrite (Hcases _ _ _ Hsplit).
    split; [|split].
    + intros Hf. rewrite Hf. reflexivity.
    + intros tok toks v e Hf Hp. rewrite Hf, Hp. reflexivity.
    + intros tok toks v Hf Hp. rewrite Hf, Hp. reflexivity.
  - intros -> v Hp.
    rewrite (Hcases "CO2" ("  412.35 ppm" +:+ String LF "") [] eq_refl).
    change (Fields (TrimSpace ("  412.35 ppm" +:+ String LF "")))
      with ["412.35"; "ppm"].
    cbv beta iota. rewrite Hp. reflexivity.
Qed.

(** C5: once the request is written and a line is read, [readFlowRate]
    splits the whole line into fields and returns what [ParseFloat] gives
    for the fourth; it fails exactly when the line has fewer than four
    fields ("invalid response format") or [ParseFloat] refuses the fourth
    ("failed to parse flow rate: ..."). *)
Theorem readFlowRate_parses (ks : Kurz.KurzSensor) (line : string) (w : World) :
  PrimFloat.eqb (Kurz.constantFlowRateSCFM ks) 0%float = true ->
  next_write w = None ->
  next_read (after_write w) = (line, None) ->
  let result := fst (fst (run (Kurz.readFlowRate ks) w)) in
  (length (Fields line) < 4 ->
     result = (0%float, Some "invalid response format"))
  /\ (forall tok v e,
        Fields line !! 3 = Some tok -> ParseFloat tok = (v, Some e) ->
        result = (0%float, Some ("failed to parse flow rate: " +:+ e)))
  /\ (forall tok v,
        Fields line !! 3 = Some tok -> ParseFloat tok = (v, None) ->
        result = (v, None))
  /\ (snd result <> None <->
      length (Fields line) < 4
      \/ exists tok, Fields line !! 3 = Some tok /\ snd (ParseFloat tok) <> None).
Proof.
  intros Hz Hw Hr result. subst result.
  rewrite readFlowRate_run by exact Hz. rewrite Hw, Hr. simpl fst.
  unfold Kurz.parseFlowRate. rewrite nth_lookup.
  destruct (Nat.ltb_spec (length (Fields line)) 4) as [Hlt|Hge].
  - repeat split.
    + intros tok v e Hl _. apply lookup_lt_Some in Hl. lia.
    + intros tok v Hl _. apply lookup_lt_Some in Hl. lia.
    + intros _. now left.
    + intros _. discriminate.
  - destruct (lookup_lt_is_Some_2 (Fields line) 3) as [tok Htok]; [lia|].
    rewrite Htok. simpl default.
    destruct (ParseFloat tok) as [v [e|]] eqn:Hp; repeat split.
    + lia.
    + intros tok' v' e' Hl Hp'. injection Hl as <-. rewrite Hp in Hp'.
      injection Hp' as _ <-. reflexivity.
    + intros tok' v' Hl Hp'. injection Hl as <-. rewrite Hp in Hp'. discriminate.
    + intros _. right. exists tok. rewrite Hp. split; [reflexivity | discriminate].
    + intros _. discriminate.
    + lia.
    + intros tok' v' e' Hl Hp'. injection Hl as <-. rewrite Hp in Hp'. discriminate.
    + intros tok' v' Hl Hp'. injection Hl as <-. rewrite Hp in Hp'.
      injection Hp' as <-. reflexivity.
    + intros Hne. now contradiction Hne.
    + intros [Hlt | (tok' & Hl & Hne)]; [lia|].
      injection Hl as <-. rewrite Hp in Hne. now contradiction Hne.
Qed.

End Transactions.

(** Witnesses of C4 and C5, with the decimal reader for [ParseFloat]. *)
Lemma readCO2_parses_witness :
  fst (fst (run (@Vaisala.readCO2 decimalStrconv (fst (Vaisala.newVaisalaSensor 19200 240)))
              (mkWorld [] [("CO2=  412.35 ppm" +:+ String LF "", None)] [])))
  = (0x1.9c5999999999ap+8%float, None).
Proof.
  pose proof (@readCO2_parses decimalStrconv (fst (Vaisala.newVaisalaSensor 19200 240))
                ("CO2=  412.35 ppm" +:+ String LF "")
                (mkWorld [] [("CO2=  412.35 ppm" +:+ String LF "", None)] [])
                eq_refl eq_refl) as Hw.
  cbv zeta in Hw. destruct Hw as (_ & _ & _ & Hex).
  apply Hex; reflexivity.
Defined.

Lemma readFlowRate_parses_witness :
  fst (fst (run (@Kurz.readFlowRate decimalStrconv (Kurz.mkKurzSensor 9600 8 "" "" "" 0%float))
              (mkWorld [] [("FLOW 1 SCFM 12.5 OK" +:+ String LF "", None)] [])))
  = (12.5%float, None).
Proof.
  pose proof (@readFlowRate_parses decimalStrconv
                (Kurz.mkKurzSensor 9600 8 "" "" "" 0%float)
                ("FLOW 1 SCFM 12.5 OK" +:+ String LF "")
                (mkWorld [] [("FLOW 1 SCFM 12.5 OK" +:+ String LF "", None)] [])
                eq_refl eq_refl eq_refl) as Hw.
  cbv zeta in Hw. destruct Hw as (_ & _ & Hok & _).
  apply (Hok "12.5"); reflexivity.
Defined.

(** ** Regular expressions *)

(** The patterns of both drivers are in the fragment, with these numbers
    of groups. *)
Lemma patterns_compile :
  option_map re_numSubexp (Compile Vaisala.vaisalaRegexSensorModel) = Some 1
  /\ option_map re_numSubexp (Compile Vaisala.vaisalaRegexSensorSerialNumber) = Some 1
  /\ option_map re_numSubexp (Compile Vaisala.vaisalaRegexSensorSoftwareVersion) = Some 1
  /\ option_map re_numSubexp (Compile Vaisala.vaisalaRegexSensorSerialUSBPrefix) = Some 0
  /\ option_map re_numSubexp (Compile Kurz.kurzRegexSensorModel) = Some 0
  /\ option_map re_numSubexp (Compile Kurz.kurzRegexSensorSerialNumber) = Some 0
  /\ option_map re_numSubexp (Compile Kurz.kurzRegexSensorSoftwareVersion) = Some 0
  /\ option_map re_numSubexp (Compile Kurz.kurzRegexSensorSerialUSBPrefix) = Some 0.
Proof. repeat split; vm_compute; reflexivity. Qed.

Lemma rmatch_slots (n : nat) (r : regex) :
  forall s c k rest caps,
    keeps_slots n k -> length c = n ->
    rmatch r s c k = Some (rest, caps) -> length caps = n.
Proof.
  induction r as [| | cl | r1 IH1 r2 IH2 | r1 IH1 r2 IH2 | r1 IH1 | i r1 IH1];
    intros s c k rest caps Hk Hc Hm; simpl in Hm.
  - discriminate.
  - exact (Hk _ _ _ _ Hc Hm).
  - destruct (DecodeRuneInString s) as [rn [|w]]; [discriminate|].
    destruct (class_match cl rn); [|discriminate].
    exact (Hk _ _ _ _ Hc Hm).
  - refine (IH1 _ _ _ _ _ _ Hc Hm).
    intros s1 c1 rest1 caps1 Hc1 Hm1. exact (IH2 _ _ _ _ _ Hk Hc1 Hm1).
  - destruct (rmatch r1 s c k) as [m|] eqn:E1.
    + injection Hm as ->. exact (IH1 _ _ _ _ _ Hk Hc E1).
    + exact (IH2 _ _ _ _ _ Hk Hc Hm).
  - match type of Hm with
    | ?star (String.length s) s c = _ =>
        assert (Hstar : forall fuel s c rest caps, length c = n ->
                   star fuel s c = Some (rest, caps) -> length caps = n);
          [| exact (Hstar _ _ _ _ _ Hc Hm)]
    end.
    clear s c rest caps Hc Hm.
    induction fuel as [|fuel IHf]; intros s c rest caps Hc Hm.
    + exact (Hk _ _ _ _ Hc Hm).
    + match type of Hm with
      | match ?scrut with _ => _ end = _ => destruct scrut as [m|] eqn:E1
      end.
      * injection Hm as ->.
        refine (IH1 _ _ _ _ _ _ Hc E1).
        intros s1 c1 rest1 caps1 Hc1 Hm1.
        destruct (Nat.ltb (String.length s1) (String.length s)); [|discriminate].
        exact (IHf _ _ _ _ Hc1 Hm1).
      * exact (Hk _ _ _ _ Hc Hm).
  - refine (IH1 _ _ _ _ _ _ Hc Hm).
    intros s1 c1 rest1 caps1 Hc1 Hm1.
    refine (Hk _ _ _ _ _ Hm1). now rewrite length_insert.
Qed.

Lemma find_go_length (re : Regexp) (fuel : nat) (s : string) :
  find_go fuel re s = [] \/ length (find_go fuel re s) = S (re_numSubexp re).
Proof.
  revert s; induction fuel as [|fuel IH]; intros s; simpl;
    destruct (rmatch (re_prog re) s (replicate (re_numSubexp re) None)
                (fun s1 c1 => Some (s1, c1))) as [[rest caps]|] eqn:E.
  - right. simpl. rewrite length_map. f_equal.
    refine (rmatch_slots _ _ _ _ _ _ _ _ _ E);
      [intros ? ? ? ? ? [= _ <-]; assumption | apply length_replicate].
  - now left.
  - right. simpl. rewrite length_map. f_equal.
    refine (rmatch_slots _ _ _ _ _ _ _ _ _ E);
      [intros ? ? ? ? ? [= _ <-]; assumption | apply length_replicate].
  - destruct (DecodeRuneInString s) as [rn [|w]]; [now left | apply IH].
Qed.

(** [FindStringSubmatch] returns nil or one entry for the match and one
    for each group of the pattern. *)
Lemma FindStringSubmatch_length (re : Regexp) (s : string) :
  FindStringSubmatch re s = []
  \/ length (FindStringSubmatch re s) = S (re_numSubexp re).
Proof. apply find_go_length. Qed.

(** Without a group in the pattern there is no entry at index 1. *)
Lemma no_group_no_submatch (pattern s : string) :
  re_numSubexp (MustCompile pattern) = 0 ->
  Nat.ltb 1 (length (FindStringSubmatch (MustCompile pattern) s)) = false.
Proof.
  intros Hn. destruct (FindStringSubmatch_length (MustCompile pattern) s) as [E|E];
    rewrite E; [reflexivity | now rewrite Hn].
Qed.

Lemma extract_code (pattern response old : string) :
  (if Nat.ltb 1 (length (FindStringSubmatch (MustCompile pattern) response))
   then nth 1 (FindStringSubmatch (MustCompile pattern) response) ""
   else old)
  = extract pattern response old.
Proof.
  unfold extract.
  destruct (FindStringSubmatch (MustCompile pattern) response) as [|m0 [|g1 rest]];
    reflexivity.
Qed.

(** ** Discovery *)

Lemma nth_last (l : list string) :
  nth (length l - 1) l "" = default "" (last l).
Proof. now rewrite nth_lookup, last_lookup, Nat.sub_1_r. Qed.

(** C6: on a listing, [searchPorts] of either driver returns what the
    specification describes: with the first match of the vendor pattern,
    its last field and, only when that field has a [/], the port
    ["/dev/" + last path segment]; "sensor not found" when there is no
    match, or when the last field has no [/]. *)
Theorem searchPorts_discovers (vs : Vaisala.VaisalaSensor) (ks : Kurz.KurzSensor)
    (listing : string) (ws : list error) (rs xs : list (string * error)) :
  fst (fst (run (Vaisala.searchPorts vs) (mkWorld ws rs ((listing, None) :: xs))))
  = spec_discover Vaisala.vaisalaRegexSensorSerialUSBPrefix
      "vaisala sensor not found" listing
  /\ fst (fst (run (Kurz.searchPorts ks) (mkWorld ws rs ((listing, None) :: xs))))
  = spec_discover Kurz.kurzRegexSensorSerialUSBPrefix
      "kurz sensor not found" listing.
Proof.
  split.
  - unfold Vaisala.searchPorts, spec_discover. run_calls.
    destruct (FindStringSubmatch
                (MustCompile Vaisala.vaisalaRegexSensorSerialUSBPrefix) listing)
      as [|m0 ms]; [reflexivity|].
    cbn [length Nat.eqb nth]. rewrite nth_last.
    destruct (Fields m0) as [|p ps]; [reflexivity|].
    cbn [length Nat.ltb Nat.leb].
    destruct (last (p :: ps)) as [tok|] eqn:El;
      [| apply last_None in El; discriminate].
    cbn [default from_option id]. destruct (ContainsByte tok "/"); run_calls; [|reflexivity].
    rewrite nth_last. unfold Vaisala.vaisalaDefaultPortFormat.
    now rewrite Sprintf_dev.
  - unfold Kurz.searchPorts, spec_discover. run_calls.
    destruct (FindStringSubmatch
                (MustCompile Kurz.kurzRegexSensorSerialUSBPrefix) listing)
      as [|m0 ms]; [reflexivity|].
    cbn [length Nat.eqb nth]. rewrite nth_last.
    destruct (Fields m0) as [|p ps]; [reflexivity|].
    cbn [length Nat.ltb Nat.leb].
    destruct (last (p :: ps)) as [tok|] eqn:El;
      [| apply last_None in El; discriminate].
    cbn [default from_option id]. destruct (ContainsByte tok "/"); run_calls; [|reflexivity].
    rewrite nth_last. unfold Kurz.kurzDefaultPortFormat.
    now rewrite Sprintf_dev.
Qed.

(** The listing quoted in [vaisala.go], a listing without the device, and
    a match whose last field has no [/]. *)
Example searchPorts_listing :
  fst (fst (run (Vaisala.searchPorts (fst (Vaisala.newVaisalaSensor 19200 240)))
              (mkWorld [] []
                 [("total 0" +:+ String LF
                     "lrwxrwxrwx 1 root root 13 Jun  5 22:17 usb-Silicon_Labs_Vaisala_USB_Instrument_Cable_R3234317-if00-port0 -> ../../ttyUSB0"
                     +:+ String LF "", None)])))
  = ("/dev/ttyUSB0", None).
Proof. vm_compute. reflexivity. Qed.

Example searchPorts_absent :
  fst (fst (run (Vaisala.searchPorts (fst (Vaisala.newVaisalaSensor 19200 240)))
              (mkWorld [] [] [("total 0" +:+ String LF "", None)])))
  = ("", Some "vaisala sensor not found").
Proof. vm_compute. reflexivity. Qed.

Example searchPorts_no_separator :
  fst (fst (run (Kurz.searchPorts (Kurz.mkKurzSensor 9600 8 "" "" "" 0%float))
              (mkWorld [] [] [("usb-FTDI_FT232R_USB_UART -> ttyUSB3", None)])))
  = ("", Some "kurz sensor not found").
Proof. vm_compute. reflexivity. Qed.

(** ** Identification *)

Lemma extract_unmatched (pattern response old : string) :
  length (FindStringSubmatch (MustCompile pattern) response) <= 1 ->
  extract pattern response old = old.
Proof.
  unfold extract.
  destruct (FindStringSubmatch (MustCompile pattern) response) as [|m0 [|g1 rest]];
    simpl; intros Hl; [reflexivity | reflexivity | lia].
Qed.

Lemma collectProbeInfo_run (vs : Vaisala.VaisalaSensor) (w : World) :
  fst (fst (run (Vaisala.collectProbeInfo vs) w)) =
  match next_write w with
  | Some e => (vs, Some ("failed to write command: " +:+ e))
  | None =>
      match next_read (after_write w) with
      | (_, Some e) => (vs, Some ("failed to read probe info response: " +:+ e))
      | (response, None) =>
          (Vaisala.mkVaisalaSensor (Vaisala.baudRate vs) (Vaisala.dataBits vs)
             (Vaisala.defaultAddress vs)
             (extract Vaisala.vaisalaRegexSensorModel response (Vaisala.sensorModel vs))
             (extract Vaisala.vaisalaRegexSensorSerialNumber response
                (Vaisala.sensorSerialNumber vs))
             (extract Vaisala.vaisalaRegexSensorSoftwareVersion response
                (Vaisala.sensorSoftwareVersion vs)),
           None)
      end
  end.
Proof.
  destruct w as [ws rs xs].
  unfold Vaisala.collectProbeInfo, Vaisala.writeCommand, next_write, next_read,
    after_write, after_read.
  destruct ws as [|[e|] ws]; run_calls; try reflexivity;
    (destruct rs as [|[response [e|]] rs]; run_calls; try reflexivity);
    rewrite <- !extract_code;
    destruct vs as [b d a m sn sv]; cbn [Vaisala.baudRate Vaisala.dataBits
      Vaisala.defaultAddress Vaisala.sensorModel Vaisala.sensorSerialNumber
      Vaisala.sensorSoftwareVersion];
    repeat match goal with
           | |- context [Nat.ltb 1 (length ?l)] => destruct (Nat.ltb 1 (length l))
           end; reflexivity.
Qed.

Lemma collectSensorInfo_run (ks : Kurz.KurzSensor) (w : World) :
  fst (fst (run (Kurz.collectSensorInfo ks) w)) =
  match next_write w with
  | Some e => (ks, Some ("failed to write command: " +:+ e))
  | None =>
      match next_read (after_write w) with
      | (_, Some e) => (ks, Some ("failed to read sensor info response: " +:+ e))
      | (response, None) =>
          (Kurz.mkKurzSensor (Kurz.baudRate ks) (Kurz.dataBits ks)
             (extract Kurz.kurzRegexSensorModel response (Kurz.sensorModel ks))
             (extract Kurz.kurzRegexSensorSerialNumber response
                (Kurz.sensorSerialNumber ks))
             (extract Kurz.kurzRegexSensorSoftwareVersion response
                (Kurz.sensorSoftwareVersion ks))
             (Kurz.constantFlowRateSCFM ks),
           None)
      end
  end.
Proof.
  destruct w as [ws rs xs].
  unfold Kurz.collectSensorInfo, Kurz.writeCommand, next_write, next_read,
    after_write, after_read.
  destruct ws as [|[e|] ws]; run_calls; try reflexivity;
    (destruct rs as [|[response [e|]] rs]; run_calls; try reflexivity);
    rewrite <- !extract_code;
    destruct ks as [b d m sn sv c]; cbn [Kurz.baudRate Kurz.dataBits
      Kurz.sensorModel Kurz.sensorSerialNumber Kurz.sensorSoftwareVersion
      Kurz.constantFlowRateSCFM];
    repeat match goal with
           | |- context [Nat.ltb 1 (length ?l)] => destruct (Nat.ltb 1 (length l))
           end; reflexivity.
Qed.

(** C7: the identification of either driver fails exactly when its write
    or, the write done, its line read fails; it then leaves the session as
    it was.  Otherwise it succeeds whatever the response holds, and each of
    the three fields is group 1 of its pattern's match in the response when
    there is such a group, and is left as it was (empty, in a new session)
    when the pattern does not match or has no group. *)
Theorem identification_fields (vs : Vaisala.VaisalaSensor) (ks : Kurz.KurzSensor)
    (w : World) :
  let wr := next_write w in
  let rd := next_read (after_write w) in
  let vout := fst (fst (run (Vaisala.collectProbeInfo vs) w)) in
  let kout := fst (fst (run (Kurz.collectSensorInfo ks) w)) in
  (snd vout <> None <-> wr <> None \/ (wr = None /\ snd rd <> None))
  /\ (snd kout <> None <-> wr <> None \/ (wr = None /\ snd rd <> None))
  /\ (snd vout <> None -> fst vout = vs)
  /\ (snd kout <> None -> fst kout = ks)
  /\ (snd vout = None ->
      Vaisala.sensorModel (fst vout)
      = extract Vaisala.vaisalaRegexSensorModel (fst rd) (Vaisala.sensorModel vs)
      /\ Vaisala.sensorSerialNumber (fst vout)
         = extract Vaisala.vaisalaRegexSensorSerialNumber (fst rd)
             (Vaisala.sensorSerialNumber vs)
      /\ Vaisala.sensorSoftwareVersion (fst vout)
         = extract Vaisala.vaisalaRegexSensorSoftwareVersion (fst rd)
             (Vaisala.sensorSoftwareVersion vs))
  /\ (snd kout = None ->
      Kurz.sensorModel (fst kout)
      = extract Kurz.kurzRegexSensorModel (fst rd) (Kurz.sensorModel ks)
      /\ Kurz.sensorSerialNumber (fst kout)
         = extract Kurz.kurzRegexSensorSerialNumber (fst rd)
             (Kurz.sensorSerialNumber ks)
      /\ Kurz.sensorSoftwareVersion (fst kout)
         = extract Kurz.kurzRegexSensorSoftwareVersion (fst rd)
             (Kurz.sensorSoftwareVersion ks))
  /\ (forall pattern old,
        length (FindStringSubmatch (MustCompile pattern) (fst rd)) <= 1 ->
        extract pattern (fst rd) old = old)
  /\ (forall pattern old m0 group1 rest,
        FindStringSubmatch (MustCompile pattern) (fst rd) = m0 :: group1 :: rest ->
        extract pattern (fst rd) old = group1).
Proof.
  intros wr rd vout kout. subst vout kout.
  rewrite collectProbeInfo_run, collectSensorInfo_run. fold wr. fold rd.
  assert (Hext : (forall pattern old,
                     length (FindStringSubmatch (MustCompile pattern) (fst rd)) <= 1 ->
                     extract pattern (fst rd) old = old)
                 /\ (forall pattern old m0 group1 rest,
                       FindStringSubmatch (MustCompile pattern) (fst rd)
                       = m0 :: group1 :: rest ->
                       extract pattern (fst rd) old = group1)).
  { split.
    - intros pattern old. apply extract_unmatched.
    - intros pattern old m0 group1 rest E. unfold extract. now rewrite E. }
  destruct wr as [e|].
  - cbn [fst snd]. repeat split; try tauto; try discriminate; try apply Hext.
    + intros _. left. discriminate.
    + intros _. left. discriminate.
  - destruct rd as [response [e|]]; cbn [fst snd] in *.
    + repeat split; try tauto; try discriminate; try apply Hext.
      * intros _. right. split; [reflexivity | discriminate].
      * intros _. right. split; [reflexivity | discriminate].
    + repeat split; try tauto; try discriminate; apply Hext.
Qed.

Section Identification.
Context `{Strconv}.

(** C9: none of the three identification patterns of the flow-rate driver
    has a group, so that [collectSensorInfo] leaves the session as it was,
    whatever the response: in a new session the model, the serial number
    and the software version stay empty.  The call succeeds exactly when
    its write and its line read do. *)
Theorem kurz_identification_unset (ks : Kurz.KurzSensor) (w : World) :
  let out := fst (fst (run (Kurz.collectSensorInfo ks) w)) in
  re_numSubexp (MustCompile Kurz.kurzRegexSensorModel) = 0
  /\ re_numSubexp (MustCompile Kurz.kurzRegexSensorSerialNumber) = 0
  /\ re_numSubexp (MustCompile Kurz.kurzRegexSensorSoftwareVersion) = 0
  /\ fst out = ks
  /\ (snd out = None <->
      next_write w = None /\ snd (next_read (after_write w)) = None)
  /\ (forall getenv baudRate,
        ks = fst (Kurz.newKurzSensor getenv baudRate) ->
        Kurz.sensorModel (fst out) = ""
        /\ Kurz.sensorSerialNumber (fst out) = ""
        /\ Kurz.sensorSoftwareVersion (fst out) = "").
Proof.
  intros out.
  assert (Hm : re_numSubexp (MustCompile Kurz.kurzRegexSensorModel) = 0)
    by (vm_compute; reflexivity).
  assert (Hs : re_numSubexp (MustCompile Kurz.kurzRegexSensorSerialNumber) = 0)
    by (vm_compute; reflexivity).
  assert (Hv : re_numSubexp (MustCompile Kurz.kurzRegexSensorSoftwareVersion) = 0)
    by (vm_compute; reflexivity).
  assert (Hout : fst out = ks
                 /\ (snd out = None <->
                     next_write w = None /\ snd (next_read (after_write w)) = None)).
  { subst out. rewrite collectSensorInfo_run.
    destruct (next_write w) as [e|].
    - cbn [fst snd]. split; [reflexivity|]. split; [discriminate | intros [? _]; discriminate].
    - destruct (next_read (after_write w)) as [response [e|]]; cbn [fst snd].
      + split; [reflexivity|]. split; [discriminate | intros [_ ?]; discriminate].
      + split; [|tauto].
        assert (Hun : forall pattern old,
                   re_numSubexp (MustCompile pattern) = 0 ->
                   extract pattern response old = old).
        { intros pattern old Hn. apply extract_unmatched.
          pose proof (no_group_no_submatch pattern response Hn) as Hlt.
          apply Nat.ltb_ge in Hlt. exact Hlt. }
        rewrite !Hun by assumption. now destruct ks. }
  destruct Hout as [Hks Herr].
  split; [exact Hm|]. split; [exact Hs|]. split; [exact Hv|].
  split; [exact Hks|]. split; [exact Herr|].
  intros getenv baudRate E. rewrite Hks, E. repeat split; reflexivity.
Qed.

End Identification.

(** The probe's answer to [?] in the manner of the patterns: the CO2
    driver takes three fields from it, the flow-rate driver none. *)
Example collectProbeInfo_fills :
  fst (fst (run (Vaisala.collectProbeInfo (fst (Vaisala.newVaisalaSensor 19200 240)))
              (mkWorld [] [("Device : GMP252 SNUM : R3234317 SW : 1" +:+ String LF "", None)] [])))
  = (Vaisala.mkVaisalaSensor 19200 8 240 "GMP252" "R3234317" "1", None).
Proof. vm_compute. reflexivity. Qed.

Example collectSensorInfo_fills_nothing :
  fst (fst (run (Kurz.collectSensorInfo (Kurz.mkKurzSensor 9600 8 "" "" "" 0%float))
              (mkWorld [] [("Device : K454 SNUM : 77 SW version : 1.2.3" +:+ String LF "", None)] [])))
  = (Kurz.mkKurzSensor 9600 8 "" "" "" 0%float, None).
Proof. vm_compute. reflexivity. Qed.

(** ** The polling loops *)

Section Polling.
Context `{Strconv}.

Lemma readCO2_no_sleep (vs : Vaisala.VaisalaSensor) (w : World) (d : Z) :
  OSleep d ∉ snd (fst (run (Vaisala.readCO2 vs) w)).
Proof.
  rewrite readCO2_run.
  destruct (next_write w) as [e|];
    [| destruct (next_read (after_write w)) as [line [e|]]];
    cbn [fst snd]; intros Hin;
    repeat (apply elem_of_cons in Hin as [Hin|Hin]; [discriminate|]);
    now apply elem_of_nil in Hin.
Qed.

Lemma readFlowRate_no_sleep (ks : Kurz.KurzSensor) (w : World) (d : Z) :
  OSleep d ∉ snd (fst (run (Kurz.readFlowRate ks) w)).
Proof.
  destruct (PrimFloat.eqb (Kurz.constantFlowRateSCFM ks) 0%float) eqn:Hz.
  - rewrite readFlowRate_run by exact Hz.
    destruct (next_write w) as [e|];
      [| destruct (next_read (after_write w)) as [line [e|]]];
      cbn [fst snd]; intros Hin;
      repeat (apply elem_of_cons in Hin as [Hin|Hin]; [discriminate|]);
      now apply elem_of_nil in Hin.
  - unfold Kurz.readFlowRate. rewrite Hz. cbn. apply not_elem_of_nil.
Qed.

Lemma startVaisalaSensor_polling (vs : Vaisala.VaisalaSensor) (n : nat) (w : World) :
  exists t w',
    run (Vaisala.startVaisalaSensor n vs) w = (tt, t, w')
    /\ polling (Vaisala.readCO2 vs) "failed to read CO2: %v" n w t w'
    /\ (forall d, OSleep d ∈ t -> d = Second).
Proof.
  revert w; induction n as [|n IH]; intros w.
  - exists [], w. split; [reflexivity|]. split; [constructor|].
    intros d Hin. now apply elem_of_nil in Hin.
  - cbn [Vaisala.startVaisalaSensor]. rewrite run_bind.
    pose proof (fun d => readCO2_no_sleep vs w d) as Hns.
    destruct (run (Vaisala.readCO2 vs) w) as [[[v [e|]] t] w1] eqn:E;
      cbn [fst snd] in *; run_calls;
      destruct (IH w1) as (t' & w' & -> & Hp & Hs).
    + eexists _, _. split; [reflexivity|]. split.
      * eapply polling_retry; eassumption.
      * intros d Hin. apply elem_of_app in Hin as [Hin|Hin]; [now apply Hns in Hin|].
        apply elem_of_cons in Hin as [Hin|Hin]; [discriminate|].
        apply elem_of_cons in Hin as [Hin|Hin]; [now injection Hin | now apply Hs].
    + eexists _, _. split; [reflexivity|]. split.
      * eapply polling_publish; eassumption.
      * intros d Hin. apply elem_of_app in Hin as [Hin|Hin]; [now apply Hns in Hin|].
        apply elem_of_cons in Hin as [Hin|Hin]; [discriminate | now apply Hs].
Qed.

Lemma startKurzSensor_polling (ks : Kurz.KurzSensor) (n : nat) (w : World) :
  exists t w',
    run (Kurz.startKurzSensor n ks) w = (tt, t, w')
    /\ polling (Kurz.readFlowRate ks) "failed to read flow rate: %v" n w t w'
    /\ (forall d, OSleep d ∈ t -> d = Second).
Proof.
  revert w; induction n as [|n IH]; intros w.
  - exists [], w. split; [reflexivity|]. split; [constructor|].
    intros d Hin. now apply elem_of_nil in Hin.
  - cbn [Kurz.startKurzSensor]. rewrite run_bind.
    pose proof (fun d => readFlowRate_no_sleep ks w d) as Hns.
    destruct (run (Kurz.readFlowRate ks) w) as [[[v [e|]] t] w1] eqn:E;
      cbn [fst snd] in *; run_calls;
      destruct (IH w1) as (t' & w' & -> & Hp & Hs).
    + eexists _, _. split; [reflexivity|]. split.
      * eapply polling_retry; eassumption.
      * intros d Hin. apply elem_of_app in Hin as [Hin|Hin]; [now apply Hns in Hin|].
        apply elem_of_cons in Hin as [Hin|Hin]; [discriminate|].
        apply elem_of_cons in Hin as [Hin|Hin]; [now injection Hin | now apply Hs].
    + eexists _, _. split; [reflexivity|]. split.
      * eapply polling_publish; eassumption.
      * intros d Hin. apply elem_of_app in Hin as [Hin|Hin]; [now apply Hns in Hin|].
        apply elem_of_cons in Hin as [Hin|Hin]; [discriminate | now apply Hs].
Qed.

(** Against a device that never answers, every round is the same failed
    attempt followed by the same sleep, for as many rounds as one looks
    at. *)
Lemma startVaisalaSensor_silent (vs : Vaisala.VaisalaSensor) (n : nat)
    (xs : list (string * error)) :
  run (Vaisala.startVaisalaSensor n vs) (mkWorld [] [] xs)
  = (tt, concat (replicate n vaisala_silent_round), mkWorld [] [] xs).
Proof.
  induction n as [|n IH]; [reflexivity|].
  cbn [Vaisala.startVaisalaSensor]. rewrite run_bind, readCO2_run.
  cbn [next_write next_read after_write after_read answer w_writes w_reads fst snd].
  run_calls. rewrite IH. reflexivity.
Qed.

Lemma startKurzSensor_silent (ks : Kurz.KurzSensor) (n : nat)
    (xs : list (string * error)) :
  PrimFloat.eqb (Kurz.constantFlowRateSCFM ks) 0%float = true ->
  run (Kurz.startKurzSensor n ks) (mkWorld [] [] xs)
  = (tt, concat (replicate n kurz_silent_round), mkWorld [] [] xs).
Proof.
  intros Hz. induction n as [|n IH]; [reflexivity|].
  cbn [Kurz.startKurzSensor]. rewrite run_bind, readFlowRate_run by exact Hz.
  cbn [next_write next_read after_write after_read answer w_writes w_reads fst snd].
  run_calls. rewrite IH. reflexivity.
Qed.

(** C8: however many rounds of either polling loop one looks at, the loop
    has run them all: each round runs the same read; a failed read is
    followed by the log line, a sleep of one second and the next round; a
    read that succeeded is followed by the send of its value on the
    channel and the next round.  No sleep is of another length than one
    second.  Against a device that never answers, the rounds are the same
    failed attempt and the same sleep, without end and without a value. *)
Theorem polling_retries (vs : Vaisala.VaisalaSensor) (ks : Kurz.KurzSensor)
    (n : nat) (w : World) :
  (exists t w',
      run (Vaisala.startVaisalaSensor n vs) w = (tt, t, w')
      /\ polling (Vaisala.readCO2 vs) "failed to read CO2: %v" n w t w'
      /\ (forall d, OSleep d ∈ t -> d = Second))
  /\ (exists t w',
      run (Kurz.startKurzSensor n ks) w = (tt, t, w')
      /\ polling (Kurz.readFlowRate ks) "failed to read flow rate: %v" n w t w'
      /\ (forall d, OSleep d ∈ t -> d = Second))
  /\ (forall xs,
      run (Vaisala.startVaisalaSensor n vs) (mkWorld [] [] xs)
      = (tt, concat (replicate n vaisala_silent_round), mkWorld [] [] xs))
  /\ (forall xs,
      PrimFloat.eqb (Kurz.constantFlowRateSCFM ks) 0%float = true ->
      run (Kurz.startKurzSensor n ks) (mkWorld [] [] xs)
      = (tt, concat (replicate n kurz_silent_round), mkWorld [] [] xs)).
Proof.
  split; [apply startVaisalaSensor_polling|].
  split; [apply startKurzSensor_polling|].
  split; [intros xs; apply startVaisalaSensor_silent|].
  intros xs Hz. now apply startKurzSensor_silent.
Qed.

End Polling.

(** ** Concurrent transactions *)

Lemma scan_app (pend : option nat) (t1 t2 : list (nat * obs)) :
  scan pend (t1 ++ t2) =
  match scan pend t1 with
  | Some pend1 => scan pend1 t2
  | None => None
  end.
Proof.
  revert pend; induction t1 as [|[j o] t1 IH]; intros pend; [reflexivity|].
  cbn [app scan].
  destruct o; try apply IH.
  - destruct pend; [reflexivity | apply IH].
  - destruct pend as [i|]; [|apply IH].
    destruct (Nat.eqb i j); [apply IH | reflexivity].
Qed.

(** A response that is awaited at the start of a faultless trace and not
    at its end was read in between, by the goroutine that awaited it. *)
Lemma scan_read (i : nat) (t : list (nat * obs)) :
  scan (Some i) t = Some None ->
  exists d line err, (i, OReadString d line err) ∈ t.
Proof.
  induction t as [|[j o] t IH]; cbn [scan]; [discriminate|].
  destruct o; try (intros Hs; destruct (IH Hs) as (d' & line' & err' & Hin);
                   exists d', line', err'; now apply list_elem_of_further).
  - discriminate.
  - destruct (Nat.eqb_spec i j) as [->|_]; [|discriminate].
    intros _. eexists _, _, _. apply list_elem_of_here.
Qed.

Lemma scan_between (pend0 pend : option nat) (t1 t2 t3 : list (nat * obs))
    (i j : nat) (p q : string) (e : error) :
  scan pend0 (t1 ++ (i, OWrite p None) :: t2 ++ (j, OWrite q e) :: t3) = Some pend ->
  exists d line err, (i, OReadString d line err) ∈ t2.
Proof.
  rewrite scan_app. destruct (scan pend0 t1) as [pend1|]; [|discriminate].
  cbn [scan]. destruct pend1; [discriminate|].
  rewrite scan_app. destruct (scan (Some i) t2) as [[k|]|] eqn:E2; try discriminate.
  intros _. now apply scan_read.
Qed.

Lemma phase_of_Held (h pend : option nat) (i : nat) :
  phase_of h pend i = Held -> h = Some i /\ pend = None.
Proof.
  unfold phase_of. destruct h as [j|]; [|discriminate].
  destruct (Nat.eqb_spec j i) as [->|_]; [|discriminate].
  destruct pend; [discriminate | now split].
Qed.

Lemma phase_of_inside (h pend : option nat) (i : nat) :
  phase_of h pend i <> Out -> h = Some i.
Proof.
  unfold phase_of. destruct h as [j|]; [|congruence].
  destruct (Nat.eqb_spec j i) as [->|_]; congruence.
Qed.

Lemma phase_of_other (i j : nat) (pend : option nat) :
  i <> j -> phase_of (Some i) pend j = Out.
Proof.
  intros Hne. unfold phase_of.
  destruct (Nat.eqb_spec i j); [contradiction | reflexivity].
Qed.

Lemma phase_of_self (i : nat) (pend : option nat) :
  phase_of (Some i) pend i = match pend with Some _ => Await | None => Held end.
Proof. unfold phase_of. now rewrite Nat.eqb_refl. Qed.

(** Every call that goroutines keeping to the protocol make keeps the
    invariant. *)
Lemma protocol_step {A : Type} (st st' : conc A) (pend : option nat) :
  protocol_inv st pend -> cstep st st' -> exists pend', protocol_inv st' pend'.
Proof.
  intros (Hscan & Hpend & Hthr) Hstep.
  destruct Hstep as [st i X e k x Hlook Hen].
  pose proof (Hthr i _ Hlook) as Hi.
  unfold protocol_inv; cbn [holder threads ctrace].
  rewrite scan_app, Hscan.
  assert (Hothers : forall h' pend' j p,
             i <> j -> threads st !! j = Some p ->
             (forall pd, phase_of (holder st) pd j = Out -> phase_of h' pend' j = Out) ->
             (holder st = h' /\ pend = pend' \/ holder st = None
              \/ holder st = Some i) ->
             txn (phase_of h' pend' j) p).
  { intros h' pend' j p Hne Hj Hout [[<- <-] | [Hn | Hs]].
    - now apply Hthr.
    - pose proof (Hthr j p Hj) as Hp. rewrite Hn in Hp, Hout.
      now rewrite (Hout pend eq_refl).
    - pose proof (Hthr j p Hj) as Hp. rewrite Hs in Hp, Hout.
      rewrite phase_of_other in Hp by exact Hne.
      rewrite (Hout pend); [exact Hp | now apply phase_of_other]. }
  destruct e; cbn [txn] in Hi; cbn [observe scan next_holder event_kind];
    unfold enabled in Hen; cbn [event_kind] in Hen.
  - (* Lock *)
    destruct Hi as [_ Hk]. destruct x.
    assert (pend = None) as ->.
    { destruct pend as [i0|]; [|reflexivity].
      specialize (Hpend i0 eq_refl). congruence. }
    exists None. split; [reflexivity|]. split; [discriminate|].
    intros j pj Hj. apply list_lookup_insert_Some in Hj as [(-> & <- & _) | (Hne & Hj)].
    + now rewrite phase_of_self.
    + apply Hothers; [assumption | assumption | | now right; left].
      intros pd _. now apply phase_of_other.
  - (* Unlock *)
    destruct Hi as [Hph Hk]. destruct x.
    apply phase_of_Held in Hph as [Hh ->].
    exists None. split; [reflexivity|]. split; [discriminate|].
    intros j pj Hj. apply list_lookup_insert_Some in Hj as [(-> & <- & _) | (Hne & Hj)].
    + exact Hk.
    + apply Hothers; [assumption | assumption | reflexivity | now right; right].
  - (* Write *)
    destruct Hi as (Hph & Hnone & Hsome).
    apply phase_of_Held in Hph as [Hh ->]. rewrite Hh.
    exists (match x with None => Some i | Some _ => None end).
    split; [reflexivity|]. split.
    + intros i0. destruct x; [discriminate | now intros [= <-]].
    + intros j pj Hj.
      apply list_lookup_insert_Some in Hj as [(-> & <- & _) | (Hne & Hj)].
      * rewrite phase_of_self. destruct x; [apply Hsome | exact Hnone].
      * rewrite phase_of_other by exact Hne.
        pose proof (Hthr j pj Hj) as Hp. rewrite Hh in Hp.
        now rewrite phase_of_other in Hp.
  - (* ReadString *)
    destruct Hi as [Hph Hk]. apply phase_of_inside in Hph. rewrite Hph.
    exists None. split.
    + cbn [fst snd]. destruct pend as [i0|]; [|reflexivity].
      specialize (Hpend i0 eq_refl). rewrite Hph in Hpend.
      injection Hpend as ->. now rewrite Nat.eqb_refl.
    + split; [discriminate|]. intros j pj Hj.
      apply list_lookup_insert_Some in Hj as [(-> & <- & _) | (Hne & Hj)].
      * rewrite phase_of_self. apply Hk.
      * rewrite phase_of_other by exact Hne.
        pose proof (Hthr j pj Hj) as Hp. rewrite Hph in Hp.
        now rewrite phase_of_other in Hp.
  - (* Exec *)
    exists pend. split; [reflexivity|]. split; [exact Hpend|].
    intros j pj Hj. apply list_lookup_insert_Some in Hj as [(-> & <- & _) | (Hne & Hj)];
      [apply Hi | now apply Hthr].
  - destruct x. exists pend. split; [reflexivity|]. split; [exact Hpend|].
    intros j pj Hj. apply list_lookup_insert_Some in Hj as [(-> & <- & _) | (Hne & Hj)];
      [apply Hi | now apply Hthr].
  - destruct x. exists pend. split; [reflexivity|]. split; [exact Hpend|].
    intros j pj Hj. apply list_lookup_insert_Some in Hj as [(-> & <- & _) | (Hne & Hj)];
      [apply Hi | now apply Hthr].
  - destruct x. exists pend. split; [reflexivity|]. split; [exact Hpend|].
    intros j pj Hj. apply list_lookup_insert_Some in Hj as [(-> & <- & _) | (Hne & Hj)];
      [apply Hi | now apply Hthr].
  - destruct x. exists pend. split; [reflexivity|]. split; [exact Hpend|].
    intros j pj Hj. apply list_lookup_insert_Some in Hj as [(-> & <- & _) | (Hne & Hj)];
      [apply Hi | now apply Hthr].
  - destruct x. exists pend. split; [reflexivity|]. split; [exact Hpend|].
    intros j pj Hj. apply list_lookup_insert_Some in Hj as [(-> & <- & _) | (Hne & Hj)];
      [apply Hi | now apply Hthr].
Qed.

Lemma protocol_reachable {A : Type} (ps : list (io A)) (st : conc A) :
  Forall (txn Out) ps -> reachable ps st -> exists pend, protocol_inv st pend.
Proof.
  intros Hps. unfold reachable. revert st. apply rtc_ind_r.
  - exists None. split; [reflexivity|]. split; [discriminate|].
    intros i p Hi. cbn [holder threads phase_of] in *.
    exact (proj1 (Forall_lookup _ _) Hps i p Hi).
  - intros st1 st2 _ Hstep [pend Hinv]. exact (protocol_step _ _ _ Hinv Hstep).
Qed.

Section Serialized.
Context `{Strconv}.

Lemma readCO2_txn (vs : Vaisala.VaisalaSensor) : txn Out (Vaisala.readCO2 vs).
Proof.
  cbn [txn bind call Vaisala.readCO2 Vaisala.readCO2_locked Vaisala.writeCommand].
  repeat split; try discriminate; intros; cbn [txn bind snd];
    repeat match goal with
           | |- context [match ?x with _ => _ end] => destruct x; cbn [txn bind snd]
           end; repeat split; discriminate.
Qed.

Lemma readFlowRate_txn (ks : Kurz.KurzSensor) : txn Out (Kurz.readFlowRate ks).
Proof.
  unfold Kurz.readFlowRate.
  destruct (negb (PrimFloat.eqb (Kurz.constantFlowRateSCFM ks) 0%float));
    [reflexivity|].
  cbn [txn bind call Kurz.readFlowRate_locked Kurz.writeCommand].
  repeat split; try discriminate; intros; cbn [txn bind snd];
    repeat match goal with
           | |- context [match ?x with _ => _ end] => destruct x; cbn [txn bind snd]
           end; repeat split; discriminate.
Qed.

(** C10: let any number of goroutines each run one read of the same
    session (one [readCO2], or one [readFlowRate]), scheduled call by call
    in any order, the mutex letting one goroutine in at a time.  In every
    trace they can produce, between a request that was written and the next
    request written there lies the line read of the goroutine that wrote
    the first: no request goes out while a response is awaited. *)
Theorem transactions_serialized (vs : Vaisala.VaisalaSensor) (ks : Kurz.KurzSensor)
    (n : nat) (st : conc (float * error))
    (t1 t2 t3 : list (nat * obs)) (i j : nat) (p q : string) (e : error) :
  reachable (replicate n (Vaisala.readCO2 vs)) st
  \/ reachable (replicate n (Kurz.readFlowRate ks)) st ->
  ctrace st = t1 ++ (i, OWrite p None) :: t2 ++ (j, OWrite q e) :: t3 ->
  exists d line err, (i, OReadString d line err) ∈ t2.
Proof.
  intros Hreach Htrace.
  assert (Hinv : exists pend, protocol_inv st pend).
  { destruct Hreach as [Hr|Hr]; refine (protocol_reachable _ _ _ Hr);
      apply Forall_replicate; [apply readCO2_txn | apply readFlowRate_txn]. }
  destruct Hinv as (pend & Hscan & _). rewrite Htrace in Hscan.
  exact (scan_between _ _ _ _ _ _ _ _ _ _ Hscan).
Qed.

End Serialized.

(** C10 at two goroutines reading the CO2 probe: the first runs its whole
    transaction, the second then takes the lock and writes its request. *)
Lemma transactions_serialized_witness :
  exists d line err,
    (0, OReadString d line err)
    ∈ [(0, OReadString LF ("CO2=  412.35 ppm" +:+ String LF "") None);
       (0, OUnlock); (1, OLock)].
Proof.
  refine (@transactions_serialized decimalStrconv
            (fst (Vaisala.newVaisalaSensor 19200 240))
            (Kurz.mkKurzSensor 9600 8 "" "" "" 0%float)
            2 _ [(0, OLock)] _ [] 0 1 ("send" +:+ CRLF) ("send" +:+ CRLF) None
            (or_introl _) _).
  - unfold reachable.
    eapply rtc_l; [eapply (cstep_call _ 0 _ MutexLock _ tt); reflexivity|].
    eapply rtc_l; [eapply (cstep_call _ 0 _ (PortWrite ("send" +:+ CRLF)) _ None);
                   [reflexivity | exact I]|].
    eapply rtc_l; [eapply (cstep_call _ 0 _ (PortReadString LF) _
                            ("CO2=  412.35 ppm" +:+ String LF "", None));
                   [reflexivity | exact I]|].
    eapply rtc_l; [eapply (cstep_call _ 0 _ MutexUnlock _ tt);
                   [reflexivity | discriminate]|].
    eapply rtc_l; [eapply (cstep_call _ 1 _ MutexLock _ tt); reflexivity|].
    eapply rtc_l; [eapply (cstep_call _ 1 _ (PortWrite ("send" +:+ CRLF)) _ None);
                   [reflexivity | exact I]|].
    apply rtc_refl.
  - reflexivity.
Defined.

(* ===================================================================== *)
(** * Further properties of the drivers                                   *)
(* ===================================================================== *)

(** ** Read transactions on every path *)

Section ReadPaths.
Context `{Strconv}.

(** X1: whatever the line answers, [readCO2] takes the lock first and
    releases it last, also when it fails; it writes its request once, and
    reads one line, only after a write that succeeded.  [readFlowRate] does
    the same with its request, unless the override is set. *)
Theorem read_transaction_shape (vs : Vaisala.VaisalaSensor) (ks : Kurz.KurzSensor)
    (w : World) :
  ((exists e, snd (fst (run (Vaisala.readCO2 vs) w))
              = [OLock; OWrite ("send" +:+ CRLF) (Some e); OUnlock])
   \/ (exists line rerr, snd (fst (run (Vaisala.readCO2 vs) w))
              = [OLock; OWrite ("send" +:+ CRLF) None;
                 OReadString LF line rerr; OUnlock]))
  /\ ((exists e, snd (fst (run (Kurz.readFlowRate ks) w))
              = [OLock; OWrite "x" (Some e); OUnlock])
      \/ (exists line rerr, snd (fst (run (Kurz.readFlowRate ks) w))
              = [OLock; OWrite "x" None; OReadString LF line rerr; OUnlock])
      \/ (PrimFloat.eqb (Kurz.constantFlowRateSCFM ks) 0%float = false
          /\ snd (fst (run (Kurz.readFlowRate ks) w)) = [])).
Proof.
  split.
  - rewrite readCO2_run. destruct (next_write w) as [e|]; [left; now exists e|].
    right. destruct (next_read (after_write w)) as [line [e|]];
      now eexists _, _.
  - destruct (PrimFloat.eqb (Kurz.constantFlowRateSCFM ks) 0%float) eqn:Hz.
    + rewrite readFlowRate_run by exact Hz.
      destruct (next_write w) as [e|]; [left; now exists e|].
      right; left. destruct (next_read (after_write w)) as [line [e|]];
        now eexists _, _.
    + right; right. split; [reflexivity|].
      unfold Kurz.readFlowRate. now rewrite Hz.
Qed.

Lemma parseCO2_error (line : string) :
  snd (Vaisala.parseCO2 line) <> None -> fst (Vaisala.parseCO2 line) = 0%float.
Proof.
  unfold Vaisala.parseCO2.
  destruct (Nat.ltb (length (SplitByte line "=")) 2); [reflexivity|].
  destruct (Nat.ltb (length (Fields (TrimSpace (nth 1 (SplitByte line "=") "")))) 1);
    [reflexivity|].
  destruct (ParseFloat _) as [v [e|]]; [reflexivity | intros Hc; now contradiction Hc].
Qed.

Lemma parseFlowRate_error (line : string) :
  snd (Kurz.parseFlowRate line) <> None -> fst (Kurz.parseFlowRate line) = 0%float.
Proof.
  unfold Kurz.parseFlowRate.
  destruct (Nat.ltb (length (Fields line)) 4); [reflexivity|].
  destruct (ParseFloat _) as [v [e|]]; [reflexivity | intros Hc; now contradiction Hc].
Qed.

(** X2: a read that returns an error returns the value 0 with it, whatever
    failed (the write, the line read, the format of the line, the number)
    and whatever [ParseFloat] returned beside its error. *)
Theorem read_error_value (vs : Vaisala.VaisalaSensor) (ks : Kurz.KurzSensor)
    (w : World) :
  (snd (fst (fst (run (Vaisala.readCO2 vs) w))) <> None ->
   fst (fst (fst (run (Vaisala.readCO2 vs) w))) = 0%float)
  /\ (snd (fst (fst (run (Kurz.readFlowRate ks) w))) <> None ->
      fst (fst (fst (run (Kurz.readFlowRate ks) w))) = 0%float).
Proof.
  split.
  - rewrite readCO2_run. destruct (next_write w) as [e|]; [reflexivity|].
    destruct (next_read (after_write w)) as [line [e|]]; [reflexivity|].
    cbn [fst snd]. apply parseCO2_error.
  - destruct (PrimFloat.eqb (Kurz.constantFlowRateSCFM ks) 0%float) eqn:Hz.
    + rewrite readFlowRate_run by exact Hz.
      destruct (next_write w) as [e|]; [reflexivity|].
      destruct (next_read (after_write w)) as [line [e|]]; [reflexivity|].
      cbn [fst snd]. apply parseFlowRate_error.
    + unfold Kurz.readFlowRate. rewrite Hz. cbn. intros Hc. now contradiction Hc.
Qed.

End ReadPaths.

(** ** The polling loops, round by round *)

Lemma lock_use_app (held : bool) (t1 t2 : list obs) :
  lock_use held (t1 ++ t2) =
  match lock_use held t1 with
  | Some held1 => lock_use held1 t2
  | None => None
  end.
Proof.
  revert held; induction t1 as [|o t1 IH]; intros held; [reflexivity|].
  cbn [app lock_use]. destruct o, held; try reflexivity; apply IH.
Qed.

Lemma polling_rounds (read : io (float * error)) (logfmt : string)
    (n : nat) (w w' : World) (t : list obs) :
  (forall w0, quiet (snd (fst (run read w0)))) ->
  polling read logfmt n w t w' ->
  length (List.filter is_sleep t) + length (List.filter is_send t) = n.
Proof.
  intros Hq Hp. induction Hp as [w | n w w1 w2 v e t t' Hr _ IH | n w w1 w2 v t t' Hr _ IH].
  - reflexivity.
  - destruct (Hq w) as [Hs Hd]. rewrite Hr in Hs, Hd. cbn [fst snd] in Hs, Hd.
    rewrite !List.filter_app, Hs, Hd. cbn. lia.
  - destruct (Hq w) as [Hs Hd]. rewrite Hr in Hs, Hd. cbn [fst snd] in Hs, Hd.
    rewrite !List.filter_app, Hs, Hd. cbn. lia.
Qed.

Lemma polling_lock_use (read : io (float * error)) (logfmt : string)
    (n : nat) (w w' : World) (t : list obs) :
  (forall w0, lock_use false (snd (fst (run read w0))) = Some false) ->
  polling read logfmt n w t w' ->
  lock_use false t = Some false.
Proof.
  intros Hl Hp. induction Hp as [w | n w w1 w2 v e t t' Hr _ IH | n w w1 w2 v t t' Hr _ IH].
  - reflexivity.
  - pose proof (Hl w) as Ht. rewrite Hr in Ht. cbn [fst snd] in Ht.
    rewrite lock_use_app, Ht. exact IH.
  - pose proof (Hl w) as Ht. rewrite Hr in Ht. cbn [fst snd] in Ht.
    rewrite lock_use_app, Ht. exact IH.
Qed.

Section Rounds.
Context `{Strconv}.

Lemma readCO2_quiet (vs : Vaisala.VaisalaSensor) (w : World) :
  quiet (snd (fst (run (Vaisala.readCO2 vs) w)))
  /\ lock_use false (snd (fst (run (Vaisala.readCO2 vs) w))) = Some false.
Proof.
  rewrite readCO2_run. destruct (next_write w) as [e|]; [now repeat split|].
  destruct (next_read (after_write w)) as [line [e|]]; now repeat split.
Qed.

Lemma readFlowRate_quiet (ks : Kurz.KurzSensor) (w : World) :
  quiet (snd (fst (run (Kurz.readFlowRate ks) w)))
  /\ lock_use false (snd (fst (run (Kurz.readFlowRate ks) w))) = Some false.
Proof.
  destruct (PrimFloat.eqb (Kurz.constantFlowRateSCFM ks) 0%float) eqn:Hz.
  - rewrite readFlowRate_run by exact Hz.
    destruct (next_write w) as [e|]; [now repeat split|].
    destruct (next_read (after_write w)) as [line [e|]]; now repeat split.
  - unfold Kurz.readFlowRate. rewrite Hz. now repeat split.
Qed.

(** X3: in [n] rounds of either polling loop, in any world, the sleeps and
    the sends together are [n]: a round sleeps once or sends once, never
    both and never neither. *)
Theorem polling_round_count (vs : Vaisala.VaisalaSensor) (ks : Kurz.KurzSensor)
    (n : nat) (w : World) :
  length (List.filter is_sleep (snd (fst (run (Vaisala.startVaisalaSensor n vs) w))))
  + length (List.filter is_send (snd (fst (run (Vaisala.startVaisalaSensor n vs) w))))
  = n
  /\ length (List.filter is_sleep (snd (fst (run (Kurz.startKurzSensor n ks) w))))
     + length (List.filter is_send (snd (fst (run (Kurz.startKurzSensor n ks) w))))
     = n.
Proof.
  split.
  - destruct (startVaisalaSensor_polling vs n w) as (t & w' & -> & Hp & _).
    cbn [fst snd]. refine (polling_rounds _ _ _ _ _ _ _ Hp).
    intros w0. apply readCO2_quiet.
  - destruct (startKurzSensor_polling ks n w) as (t & w' & -> & Hp & _).
    cbn [fst snd]. refine (polling_rounds _ _ _ _ _ _ _ Hp).
    intros w0. apply readFlowRate_quiet.
Qed.

(** X4: in any number of rounds of either polling loop, in any world, the
    lock is used in pairs and only around the serial line: the loop never
    sleeps and never sends on its channel while it holds the lock, it
    writes and reads only while it holds it, and the lock is free after
    every round. *)
Theorem polling_lock_free (vs : Vaisala.VaisalaSensor) (ks : Kurz.KurzSensor)
    (n : nat) (w : World) :
  lock_use false (snd (fst (run (Vaisala.startVaisalaSensor n vs) w))) = Some false
  /\ lock_use false (snd (fst (run (Kurz.startKurzSensor n ks) w))) = Some false.
Proof.
  split.
  - destruct (startVaisalaSensor_polling vs n w) as (t & w' & -> & Hp & _).
    cbn [fst snd]. refine (polling_lock_use _ _ _ _ _ _ _ Hp).
    intros w0. apply readCO2_quiet.
  - destruct (startKurzSensor_polling ks n w) as (t & w' & -> & Hp & _).
    cbn [fst snd]. refine (polling_lock_use _ _ _ _ _ _ _ Hp).
    intros w0. apply readFlowRate_quiet.
Qed.

End Rounds.

(** ** The override taken from the environment *)

Section NoOverride.
Context `{Strconv}.

(** X5: when [CONSTANT_FLOW_RATE_SCFM] is not set or empty, when
    [ParseFloat] refuses it, or when it reads as zero, the new session has
    no override: every [readFlowRate] takes the lock and writes the request
    ["x"] to the meter.  So a constant flow of zero cannot be configured. *)
Theorem override_disabled (getenv : string -> string) (baudRate : Z) (w : World) :
  getenv "CONSTANT_FLOW_RATE_SCFM" = ""
  \/ snd (ParseFloat (getenv "CONSTANT_FLOW_RATE_SCFM")) <> None
  \/ PrimFloat.eqb (fst (ParseFloat (getenv "CONSTANT_FLOW_RATE_SCFM"))) 0%float = true ->
  exists werr rest,
    snd (fst (run (Kurz.readFlowRate (fst (Kurz.newKurzSensor getenv baudRate))) w))
    = OLock :: OWrite "x" werr :: rest.
Proof.
  intros Hcase.
  assert (Hz : PrimFloat.eqb
                 (Kurz.constantFlowRateSCFM (fst (Kurz.newKurzSensor getenv baudRate)))
                 0%float = true).
  { unfold Kurz.newKurzSensor. cbn [fst Kurz.constantFlowRateSCFM].
    destruct (String.eqb_spec (getenv "CONSTANT_FLOW_RATE_SCFM") "") as [E|E];
      [reflexivity|]. cbn [negb].
    destruct Hcase as [Hc | [Hc | Hc]]; [contradiction | |];
      destruct (ParseFloat (getenv "CONSTANT_FLOW_RATE_SCFM")) as [v [e|]];
      cbn [fst snd] in Hc; try reflexivity; try exact Hc.
    now contradiction Hc. }
  rewrite readFlowRate_run by exact Hz.
  destruct (next_write w) as [e|]; [now eexists _, _|].
  destruct (next_read (after_write w)) as [line [e|]]; now eexists _, _.
Qed.

End NoOverride.

(** X5 at [CONSTANT_FLOW_RATE_SCFM=0]. *)
Lemma override_disabled_witness :
  exists werr rest,
    snd (fst (run (@Kurz.readFlowRate decimalStrconv
                     (fst (@Kurz.newKurzSensor decimalStrconv
                             (fun name => if String.eqb name "CONSTANT_FLOW_RATE_SCFM"
                                          then "0" else "") 9600)))
                (mkWorld [] [] [])))
    = OLock :: OWrite "x" werr :: rest.
Proof.
  apply (@override_disabled decimalStrconv
           (fun name => if String.eqb name "CONSTANT_FLOW_RATE_SCFM" then "0" else "")
           9600 (mkWorld [] [] [])).
  right; right. reflexivity.
Defined.

(** ** Discovery, in every world *)

Lemma ContainsByte_app (a b : string) (c : ascii) :
  ContainsByte (a +:+ b) c = ContainsByte a c || ContainsByte b c.
Proof.
  induction a as [|x a IH]; [reflexivity|]. cbn [String.append ContainsByte].
  now rewrite IH, orb_assoc.
Qed.

(** No piece of a split holds the separator. *)
Lemma SplitByte_go_pieces (s : string) (sep : ascii) (cur : string) :
  ContainsByte cur sep = false ->
  Forall (fun piece => ContainsByte piece sep = false) (SplitByte_go s sep cur).
Proof.
  revert cur; induction s as [|c s IH]; intros cur Hcur; cbn [SplitByte_go].
  - now constructor.
  - destruct (Ascii.eqb c sep) eqn:E.
    + constructor; [exact Hcur | now apply IH].
    + apply IH. rewrite ContainsByte_app, Hcur. cbn. now rewrite E.
Qed.

Lemma SplitByte_last_piece (s : string) (sep : ascii) :
  ContainsByte (default "" (last (SplitByte s sep))) sep = false.
Proof.
  pose proof (SplitByte_go_pieces s sep "" eq_refl) as Hall.
  fold (SplitByte s sep) in Hall.
  destruct (last (SplitByte s sep)) as [piece|] eqn:El; [|reflexivity].
  cbn. rewrite last_lookup in El.
  exact (proj1 (Forall_lookup _ _) Hall _ _ El).
Qed.

Ltac discovery_leaf :=
  unfold discovery_shape; cbn [fst snd w_writes w_reads List.filter is_exec length];
  repeat split;
  try discriminate; try reflexivity;
  try (intros Hc; now contradiction Hc);
  try (intros ? [= <-]; reflexivity);
  try (repeat constructor).

(** X6: in any world, [searchPorts] of either driver runs the listing
    command once and besides only logs; it never touches the serial line.
    When the command fails it returns that failure.  A port it returns is
    ["/dev/"] followed by one path segment without a [/]; with an error
    the port is empty. *)
Theorem searchPorts_shape (vs : Vaisala.VaisalaSensor) (ks : Kurz.KurzSensor)
    (w : World) :
  discovery_shape w (run (Vaisala.searchPorts vs) w)
  /\ discovery_shape w (run (Kurz.searchPorts ks) w).
Proof.
  split.
  - destruct w as [ws rs xs]. unfold Vaisala.searchPorts, next_exec.
    destruct xs as [|[listing [e|]] xs]; run_calls;
      [discovery_leaf | discovery_leaf |].
    destruct (FindStringSubmatch
                (MustCompile Vaisala.vaisalaRegexSensorSerialUSBPrefix) listing)
      as [|m0 ms] eqn:Em; run_calls; [discovery_leaf|].
    cbn [length Nat.eqb nth]. rewrite nth_last.
    destruct (Fields m0) as [|p ps]; run_calls; [discovery_leaf|].
    cbn [length Nat.ltb Nat.leb].
    destruct (ContainsByte (default "" (last (p :: ps))) "/"); run_calls;
      [|discovery_leaf].
    rewrite nth_last. unfold Vaisala.vaisalaDefaultPortFormat. rewrite Sprintf_dev.
    discovery_leaf. intros _. eexists. split; [reflexivity|].
    apply SplitByte_last_piece.
  - destruct w as [ws rs xs]. unfold Kurz.searchPorts, next_exec.
    destruct xs as [|[listing [e|]] xs]; run_calls;
      [discovery_leaf | discovery_leaf |].
    destruct (FindStringSubmatch
                (MustCompile Kurz.kurzRegexSensorSerialUSBPrefix) listing)
      as [|m0 ms] eqn:Em; run_calls; [discovery_leaf|].
    cbn [length Nat.eqb nth]. rewrite nth_last.
    destruct (Fields m0) as [|p ps]; run_calls; [discovery_leaf|].
    cbn [length Nat.ltb Nat.leb].
    destruct (ContainsByte (default "" (last (p :: ps))) "/"); run_calls;
      [|discovery_leaf].
    rewrite nth_last. unfold Kurz.kurzDefaultPortFormat. rewrite Sprintf_dev.
    discovery_leaf. intros _. eexists. split; [reflexivity|].
    apply SplitByte_last_piece.
Qed.

(** The calls of [searchPorts] are the command and logs. *)
Lemma searchPorts_calls (vs : Vaisala.VaisalaSensor) (ks : Kurz.KurzSensor)
    (w : World) :
  Forall (fun o => is_exec o || is_log o = true)
    (snd (fst (run (Vaisala.searchPorts vs) w)))
  /\ Forall (fun o => is_exec o || is_log o = true)
       (snd (fst (run (Kurz.searchPorts ks) w))).
Proof.
  split.
  - destruct w as [ws rs xs]. unfold Vaisala.searchPorts.
    destruct xs as [|[listing [e|]] xs]; run_calls; try (repeat constructor).
    destruct (FindStringSubmatch
                (MustCompile Vaisala.vaisalaRegexSensorSerialUSBPrefix) listing)
      as [|m0 ms]; run_calls; try (repeat constructor).
    cbn [length Nat.eqb].
    destruct (Nat.ltb 0 (length (Fields (nth 0 (m0 :: ms) ""))));
      run_calls; try (repeat constructor).
    destruct (ContainsByte _ "/"); run_calls; repeat constructor.
  - destruct w as [ws rs xs]. unfold Kurz.searchPorts.
    destruct xs as [|[listing [e|]] xs]; run_calls; try (repeat constructor).
    destruct (FindStringSubmatch
                (MustCompile Kurz.kurzRegexSensorSerialUSBPrefix) listing)
      as [|m0 ms]; run_calls; try (repeat constructor).
    cbn [length Nat.eqb].
    destruct (Nat.ltb 0 (length (Fields (nth 0 (m0 :: ms) ""))));
      run_calls; try (repeat constructor).
    destruct (ContainsByte _ "/"); run_calls; repeat constructor.
Qed.

(** ** Heart-rate frames *)

Lemma log2_below_16 (a : N) : (a < 65536)%N -> (N.log2 a < 16)%N.
Proof.
  intros Ha. destruct (N.eq_dec a 0%N) as [->|Hnz]; [reflexivity|].
  apply N.log2_lt_pow2; [lia | exact Ha].
Qed.

Lemma Uint16_bound (b0 b1 : Byte.byte) :
  (N.lor (Byte.to_N b0) (N.shiftl (Byte.to_N b1) 8) < 65536)%N.
Proof.
  pose proof (Byte.to_N_bounded b0) as H0.
  pose proof (Byte.to_N_bounded b1) as H1.
  set (x := N.lor (Byte.to_N b0) (N.shiftl (Byte.to_N b1) 8)).
  destruct (N.eq_dec x 0%N) as [Hz|Hnz]; [now rewrite Hz|].
  change 65536%N with (2 ^ 16)%N. apply N.log2_lt_pow2; [lia|].
  subst x. rewrite N.log2_lor. apply N.max_lub_lt.
  - apply log2_below_16. lia.
  - apply log2_below_16. rewrite N.shiftl_mul_pow2. change (2 ^ 8)%N with 256%N. lia.
Qed.

Lemma le16_pairs_shape (bs : list Byte.byte) :
  length (le16_pairs bs) = length bs / 2
  /\ Forall (fun x => (x < 65536)%N) (le16_pairs bs).
Proof.
  assert (Hboth : forall n (l : list Byte.byte), length l < n ->
             length (le16_pairs l) = length l / 2
             /\ Forall (fun x => (x < 65536)%N) (le16_pairs l)).
  { induction n as [|n IH]; intros l Hl; [lia|].
    destruct l as [|b0 [|b1 rest]]; cbn [le16_pairs length].
    - split; [reflexivity | constructor].
    - split; [reflexivity | constructor].
    - destruct (IH rest) as [Hlen Hall]; [cbn [length] in Hl; lia|].
      split.
      + rewrite Hlen. change (S (S (length rest))) with (1 * 2 + length rest)%nat.
        rewrite Nat.div_add_l by lia. reflexivity.
      + constructor; [apply Uint16_bound | exact Hall]. }
  apply (Hboth (S (length bs))). lia.
Qed.

(** X7: an RR sequence that the callback sends is never empty: it has
    one interval for every two bytes after the first two, each below
    65536. *)
Theorem rr_sequence_shape (buf : list Byte.byte) (w : World) (rr : list N) :
  OSendRR (Some rr) ∈ snd (fst (run (Polar.notification buf) w)) ->
  length rr = (length buf - 2) / 2
  /\ 1 <= length rr
  /\ Forall (fun x => (x < 65536)%N) rr.
Proof.
  unfold Polar.notification.
  destruct (Nat.ltb_spec 1 (length buf)) as [Hlen|Hlen];
    [|cbn; intros Hin; now apply elem_of_nil in Hin].
  destruct (negb (N.eqb (N.land (Byte.to_N (nth 0 buf Byte.x00)) 16) 0)); cbn [andb];
    [destruct (Nat.leb_spec 4 (length buf)) as [H4|H4]|]; cbn;
    intros Hin;
    repeat (apply elem_of_cons in Hin as [Hin|Hin]; [try discriminate|]);
    try (now apply elem_of_nil in Hin).
  injection Hin as ->. rewrite rr_loop_pairs by lia.
  cbn [app]. destruct (le16_pairs_shape (drop 2 buf)) as [Hl Hall].
  rewrite Hl, length_drop. repeat split; [|exact Hall].
  apply Nat.div_le_lower_bound; lia.
Qed.

(** X7 at a frame with two intervals. *)
Lemma rr_sequence_shape_witness :
  length [4660%N; 22136%N] = (6 - 2) / 2
  /\ 1 <= length [4660%N; 22136%N]
  /\ Forall (fun x => (x < 65536)%N) [4660%N; 22136%N].
Proof.
  apply (rr_sequence_shape
           [Byte.x10; Byte.x48; Byte.x34; Byte.x12; Byte.x78; Byte.x56]
           (mkWorld [] [] []) [4660%N; 22136%N]).
  cbn. apply list_elem_of_further, list_elem_of_here.
Defined.

(** X8: of the flags byte the callback looks at bit 4 only: two frames
    that differ in other bits of their flags publish the same events.  In
    particular the heart rate is always the one byte at index 1 and the RR
    values always start at index 2. *)
Theorem notification_flags (f f' : Byte.byte) (rest : list Byte.byte) (w : World) :
  N.testbit (Byte.to_N f) 4 = N.testbit (Byte.to_N f') 4 ->
  run (Polar.notification (f :: rest)) w = run (Polar.notification (f' :: rest)) w.
Proof.
  intros Hbit. unfold Polar.notification. cbn [length nth].
  rewrite !flag_bit4, Hbit.
  destruct (Nat.ltb 1 (S (length rest))); [|reflexivity].
  destruct (N.testbit (Byte.to_N f') 4 && Nat.leb 4 (S (length rest))) eqn:E;
    [|reflexivity].
  apply andb_true_iff in E as [_ E]. apply Nat.leb_le in E.
  rewrite !rr_loop_pairs by (cbn [length]; lia). reflexivity.
Qed.

(** X8 at the flags [0x10] and [0x1f]. *)
Lemma notification_flags_witness :
  run (Polar.notification [Byte.x10; Byte.x48; Byte.x34; Byte.x12]) (mkWorld [] [] [])
  = run (Polar.notification [Byte.x1f; Byte.x48; Byte.x34; Byte.x12]) (mkWorld [] [] []).
Proof.
  exact (notification_flags Byte.x10 Byte.x1f [Byte.x48; Byte.x34; Byte.x12]
           (mkWorld [] [] []) eq_refl).
Defined.

(** ** Starting the heart-rate sensor *)

Ltac run_bt :=
  cbn [prun pbind pcall reply record Polar.bt_env Polar.bt_reply Polar.bt_record
       Polar.bt_connects Polar.bt_services Polar.bt_chars Polar.bt_enables
       Polar.bt_disconnects fst snd].

Lemma startPolarSensor_run (device : nat) (w : Polar.BtWorld) :
  fst (prun (Polar.startPolarSensor device) w) =
  match next_services w with
  | (srvcs, Some e) =>
      (Some ("failed to discover heart rate service: " +:+ e),
       [Polar.BServices device srvcs (Some e)])
  | ([], None) =>
      (Some "could not find heart rate service", [Polar.BServices device [] None])
  | (s :: ss, None) =>
      match next_chars w with
      | (chars, Some e) =>
          (Some ("failed to discover heart rate characteristic: " +:+ e),
           [Polar.BServices device (s :: ss) None;
            Polar.BCharacteristics s chars (Some e)])
      | ([], None) =>
          (Some "could not find heart rate characteristic",
           [Polar.BServices device (s :: ss) None; Polar.BCharacteristics s [] None])
      | (c :: cs, None) =>
          (None,
           [Polar.BServices device (s :: ss) None;
            Polar.BCharacteristics s (c :: cs) None;
            Polar.BEnable c (next_enable w)])
      end
  end.
Proof.
  destruct w as [cn sv ch en ds].
  unfold Polar.startPolarSensor, next_services, next_chars, next_enable.
  cbn [Polar.bt_services Polar.bt_chars Polar.bt_enables].
  destruct sv as [|[[|s ss] [e|]] sv]; run_bt; cbn [length Nat.eqb nth]; run_bt;
    try reflexivity;
    (destruct ch as [|[[|c cs] [e|]] ch]; run_bt; cbn [length Nat.eqb nth]; run_bt;
     try reflexivity);
    destruct en as [|eerr en]; reflexivity.
Qed.

Ltac bt_members Hin :=
  repeat (apply elem_of_cons in Hin as [Hin|Hin]; [try discriminate|]);
  try (now apply elem_of_nil in Hin).

(** X9: [startPolarSensor] succeeds exactly when the service discovery and
    the characteristic discovery both succeed with a result that is not
    empty.  Characteristics are asked of the first service only, and
    notifications are enabled on the first characteristic only.  Whether
    enabling them succeeded is not looked at: the call returns nil also
    when the subscription failed. *)
Theorem startPolarSensor_outcome (device : nat) (w : Polar.BtWorld) :
  let r := prun (Polar.startPolarSensor device) w in
  let err := fst (fst r) in
  let t := snd (fst r) in
  (err = None <->
   exists s ss c cs,
     next_services w = (s :: ss, None) /\ next_chars w = (c :: cs, None))
  /\ (forall s cs e, Polar.BCharacteristics s cs e ∈ t ->
      exists ss, next_services w = (s :: ss, None))
  /\ (forall c e, Polar.BEnable c e ∈ t ->
      err = None
      /\ exists s ss cs,
          next_services w = (s :: ss, None) /\ next_chars w = (c :: cs, None)).
Proof.
  intros r err t. subst err t r. rewrite startPolarSensor_run.
  destruct (next_services w) as [[|s ss] [e|]]; cbn [fst snd].
  - split; [split; [discriminate | intros (? & ? & ? & ? & ? & ?); discriminate]|].
    split; [intros ? ? ? Hin | intros ? ? Hin]; bt_members Hin.
  - split; [split; [discriminate | intros (? & ? & ? & ? & ? & ?); discriminate]|].
    split; [intros ? ? ? Hin | intros ? ? Hin]; bt_members Hin.
  - split; [split; [discriminate | intros (? & ? & ? & ? & ? & ?); discriminate]|].
    split; [intros ? ? ? Hin | intros ? ? Hin]; bt_members Hin.
  - destruct (next_chars w) as [[|c cs] [e|]]; cbn [fst snd].
    + split; [split; [discriminate | intros (? & ? & ? & ? & ? & ?); discriminate]|].
      split; [intros ? ? ? Hin | intros ? ? Hin]; bt_members Hin.
      injection Hin as -> -> ->. now eexists.
    + split; [split; [discriminate | intros (? & ? & ? & ? & ? & ?); discriminate]|].
      split; [intros ? ? ? Hin | intros ? ? Hin]; bt_members Hin.
      injection Hin as -> -> ->. now eexists.
    + split; [split; [discriminate | intros (? & ? & ? & ? & ? & ?); discriminate]|].
      split; [intros ? ? ? Hin | intros ? ? Hin]; bt_members Hin.
      injection Hin as -> -> ->. now eexists.
    + split; [split; [intros _; now eexists _, _, _, _ | reflexivity]|].
      split; [intros ? ? ? Hin | intros ? ? Hin]; bt_members Hin.
      * injection Hin as -> -> ->. now eexists.
      * injection Hin as -> ->. split; [reflexivity | now eexists _, _, _].
Qed.

(** A subscription that failed goes unreported. *)
Example startPolarSensor_enable_failed :
  fst (prun (Polar.startPolarSensor 1)
         (Polar.mkBtWorld [] [([7], None)] [([9], None)] [Some "not permitted"] []))
  = (None, [Polar.BServices 1 [7] None; Polar.BCharacteristics 7 [9] None;
            Polar.BEnable 9 (Some "not permitted")]).
Proof. reflexivity. Qed.

(** ** Opening a connection *)

Lemma prun_pbind {E : Type -> Type} {W O : Type} `{Env E W O} {A B : Type}
    (m : prog E A) (f : A -> prog E B) (w : W) :
  prun (pbind m f) w =
  let '(a, t1, w1) := prun m w in
  let '(b, t2, w2) := prun (f a) w1 in
  (b, t1 ++ t2, w2).
Proof.
  revert w; induction m as [a | X e k IH]; intros w; cbn [pbind prun].
  - destruct (prun (f a) w) as [[b t2] w2]; reflexivity.
  - destruct (reply X e w) as [x w1]. rewrite IH.
    destruct (prun (k x) w1) as [[a t1] w1'].
    destruct (prun (f a) w1') as [[b t2] w2]; reflexivity.
Qed.

(** A program of [io] inside a life-cycle program runs as it does alone,
    on the scripts of the serial line. *)
Lemma prun_lift {A : Type} (p : io A) (sw : SysWorld) :
  prun (lift p) sw =
  let '(a, t, w) := run p (sw_inner sw) in
  (a, map SInner t, mkSysWorld w (sw_closes sw) (sw_opens sw)).
Proof.
  revert sw; induction p as [a | X e k IH]; intros sw; cbn [lift prun run].
  - now destruct sw.
  - cbn [reply record sys_env sys_reply sys_record].
    destruct (answer e (sw_inner sw)) as [x w1]. rewrite IH. cbn [sw_inner sw_closes sw_opens].
    destruct (run (k x) w1) as [[a t] w2]. reflexivity.
Qed.

Ltac run_sys :=
  cbn [prun pbind pcall reply record sys_env sys_reply sys_record
       sw_inner sw_closes sw_opens fst snd answer w_writes w_reads w_execs observe
       app map tl].

(** Unfolding one [openSerialConnection] down to its outcomes: the close
    and its answer, the discovery, the open and its answer, the select
    command, the identification. *)
Ltac vaisala_open_cases vs conn sw :=
  unfold Vaisala.openSerialConnection, next_open, next_close, next_write, after_write;
  destruct sw as [w0 cl op];
  rewrite !prun_pbind;
  first [ is_var conn; destruct conn as [c|]; [destruct cl as [|[ce|] cl]|]
        | destruct cl as [|[ce|] cl] ];
  run_sys; rewrite ?prun_pbind, ?prun_lift; run_sys;
  (destruct (run (Vaisala.searchPorts vs) w0) as [[[port [serr|]] ts] w1] eqn:Esearch;
   [ run_sys
   | run_sys; destruct op as [|[newc|oerr] op];
     [ run_sys
     | run_sys; destruct w1 as [ws rs xs]; destruct ws as [|[werr|] ws]; run_sys;
       rewrite ?prun_pbind, ?prun_lift; run_sys;
       try match goal with
           | |- context [run (Vaisala.collectProbeInfo vs) ?w] =>
               destruct (run (Vaisala.collectProbeInfo vs) w)
                 as [[[vs' [cerr|]] tc] w3] eqn:Ecollect; run_sys
           end
     | run_sys ] ]).

Ltac kurz_open_cases ks conn sw :=
  unfold Kurz.openSerialConnection, next_open, next_close, next_write, after_write;
  destruct sw as [w0 cl op];
  rewrite !prun_pbind;
  first [ is_var conn; destruct conn as [c|]; [destruct cl as [|[ce|] cl]|]
        | destruct cl as [|[ce|] cl] ];
  run_sys; rewrite ?prun_pbind, ?prun_lift; run_sys;
  (destruct (run (Kurz.searchPorts ks) w0) as [[[port [serr|]] ts] w1] eqn:Esearch;
   [ run_sys
   | run_sys; destruct op as [|[newc|oerr] op];
     [ run_sys
     | run_sys; rewrite ?prun_pbind, ?prun_lift; run_sys;
       try match goal with
           | |- context [run (Kurz.collectSensorInfo ks) ?w] =>
               destruct (run (Kurz.collectSensorInfo ks) w)
                 as [[[ks' [cerr|]] tc] w3] eqn:Ecollect; run_sys
           end
     | run_sys ] ]).

Lemma filter_open_inner (t : list obs) : List.filter is_open (map SInner t) = [].
Proof. induction t as [|o t IH]; [reflexivity | exact IH]. Qed.

Lemma filter_close_inner (t : list obs) : List.filter is_close (map SInner t) = [].
Proof. induction t as [|o t IH]; [reflexivity | exact IH]. Qed.

Ltac no_open :=
  repeat first [ progress cbn [List.filter is_open app]
               | rewrite List.filter_app
               | rewrite filter_open_inner ];
  reflexivity.

(** X10: when discovery fails, [openSerialConnection] of either driver
    returns "failed to find ... sensor" with the cause, opens nothing, and
    leaves in the struct the connection it held before, which it has
    closed by then. *)
Theorem open_discovery_failed (vs : Vaisala.VaisalaSensor) (ks : Kurz.KurzSensor)
    (conn : option nat) (sw : SysWorld) :
  (forall e,
      snd (fst (fst (run (Vaisala.searchPorts vs) (sw_inner sw)))) = Some e ->
      fst (fst (prun (Vaisala.openSerialConnection vs conn) sw))
      = (vs, conn, Some ("failed to find Vaisala sensor: " +:+ e))
      /\ List.filter is_open (snd (fst (prun (Vaisala.openSerialConnection vs conn) sw))) = []
      /\ (forall c, conn = Some c ->
          exists cerr, SClose c cerr
                       ∈ snd (fst (prun (Vaisala.openSerialConnection vs conn) sw))))
  /\ (forall e,
      snd (fst (fst (run (Kurz.searchPorts ks) (sw_inner sw)))) = Some e ->
      fst (fst (prun (Kurz.openSerialConnection ks conn) sw))
      = (ks, conn, Some ("failed to find Kurz sensor: " +:+ e))
      /\ List.filter is_open (snd (fst (prun (Kurz.openSerialConnection ks conn) sw))) = []
      /\ (forall c, conn = Some c ->
          exists cerr, SClose c cerr
                       ∈ snd (fst (prun (Kurz.openSerialConnection ks conn) sw)))).
Proof.
  split.
  - vaisala_open_cases vs conn sw; intros e He; try discriminate;
      injection He as <-;
      (split; [reflexivity|]); (split; [no_open|]);
      intros c0 Hc; try discriminate; injection Hc as <-;
      eexists; apply list_elem_of_here.
  - kurz_open_cases ks conn sw; intros e He; try discriminate;
      injection He as <-;
      (split; [reflexivity|]); (split; [no_open|]);
      intros c0 Hc; try discriminate; injection Hc as <-;
      eexists; apply list_elem_of_here.
Qed.

Lemma open_not_inner (port : string) (b d : Z) (r : open_result) (t : list obs) :
  SOpen port b d r ∈ map SInner t -> False.
Proof.
  induction t as [|o t IH]; cbn [map]; intros Hin.
  - now apply elem_of_nil in Hin.
  - apply elem_of_cons in Hin as [Hin|Hin]; [discriminate | now apply IH].
Qed.

Ltac sys_members Hin :=
  repeat first
    [ apply elem_of_cons in Hin as [Hin|Hin]; [try discriminate|]
    | apply elem_of_app in Hin as [Hin|Hin]; [try (now apply open_not_inner in Hin)|] ];
  try (now apply elem_of_nil in Hin);
  try (now apply open_not_inner in Hin).

Ltac filter_sys :=
  repeat first [ progress cbn [List.filter is_open is_close app length]
               | rewrite List.filter_app
               | rewrite filter_open_inner
               | rewrite filter_close_inner ].

Ltac one_open := filter_sys; lia.

Section OpenParameters.
Context `{Strconv}.

(** X11: [openSerialConnection] opens at most one port, and the port it
    opens is the one discovery returned.  A session made by
    [newVaisalaSensor] opens it at 19200 baud and 8 data bits whatever baud
    rate the constructor was given; a session made by [newKurzSensor] opens
    it at the baud rate the constructor was given and 8 data bits. *)
Theorem open_parameters (baudRate defaultAddress : Z) (getenv : string -> string)
    (conn : option nat) (sw : SysWorld) :
  let vs := fst (Vaisala.newVaisalaSensor baudRate defaultAddress) in
  let ks := fst (Kurz.newKurzSensor getenv baudRate) in
  (forall port b d r,
      SOpen port b d r ∈ snd (fst (prun (Vaisala.openSerialConnection vs conn) sw)) ->
      b = 19200%Z /\ d = 8%Z
      /\ fst (fst (run (Vaisala.searchPorts vs) (sw_inner sw))) = (port, None))
  /\ length (List.filter is_open
               (snd (fst (prun (Vaisala.openSerialConnection vs conn) sw)))) <= 1
  /\ (forall port b d r,
      SOpen port b d r ∈ snd (fst (prun (Kurz.openSerialConnection ks conn) sw)) ->
      b = baudRate /\ d = 8%Z
      /\ fst (fst (run (Kurz.searchPorts ks) (sw_inner sw))) = (port, None))
  /\ length (List.filter is_open
               (snd (fst (prun (Kurz.openSerialConnection ks conn) sw)))) <= 1.
Proof.
  intros vs ks.
  assert (Hvs : Vaisala.baudRate vs = 19200%Z /\ Vaisala.dataBits vs = 8%Z)
    by (split; reflexivity).
  assert (Hks : Kurz.baudRate ks = baudRate /\ Kurz.dataBits ks = 8%Z)
    by (split; reflexivity).
  clearbody vs ks. destruct Hvs as [Hvb Hvd]. destruct Hks as [Hkb Hkd].
  split; [|split; [|split]].
  - revert conn. intros conn. vaisala_open_cases vs conn sw;
      intros port0 b d r Hin; sys_members Hin;
      injection Hin as -> -> -> ->; repeat split; assumption.
  - vaisala_open_cases vs conn sw; one_open.
  - kurz_open_cases ks conn sw;
      intros port0 b d r Hin; sys_members Hin;
      injection Hin as -> -> -> ->; repeat split; assumption.
  - kurz_open_cases ks conn sw; one_open.
Qed.

End OpenParameters.

(** X12: [openSerialConnection] of the CO2 driver returns nil exactly when
    discovery, the open, the write of the select command and the
    identification all succeed.  Once the open has succeeded, the struct
    holds the new connection whatever fails afterwards, and the new
    connection is never closed: the only close of the call is the one of
    the connection held before. *)
Theorem vaisala_open_outcome (vs : Vaisala.VaisalaSensor) (conn : option nat)
    (sw : SysWorld) :
  let r := prun (Vaisala.openSerialConnection vs conn) sw in
  let s := run (Vaisala.searchPorts vs) (sw_inner sw) in
  (snd (fst (fst r)) = None <->
   snd (fst (fst s)) = None
   /\ (exists c, next_open sw = Opened c)
   /\ next_write (snd s) = None
   /\ snd (fst (fst (run (Vaisala.collectProbeInfo vs) (after_write (snd s))))) = None)
  /\ (forall c, snd (fst (fst s)) = None -> next_open sw = Opened c ->
      snd (fst (fst (fst r))) = Some c)
  /\ List.filter is_close (snd (fst r))
     = match conn with
       | Some c => [SClose c (next_close sw)]
       | None => []
       end.
Proof.
  intros r s. subst r s.
  vaisala_open_cases vs conn sw;
    (split; [split; [intros Hn | intros (Hs & (c0 & Ho) & Hw & Hc)]|
             split; [intros c0 Hs Ho|]]);
    try discriminate; try reflexivity;
    try (injection Ho as <-; reflexivity);
    try (filter_sys; reflexivity);
    try (repeat split; try reflexivity; now eexists).
Qed.

(** X13: the same for the flow-rate driver, which has no select command:
    its [openSerialConnection] returns nil exactly when discovery, the open
    and the identification succeed; after a successful open the struct
    holds the new connection whatever fails afterwards, and the call never
    closes it. *)
Theorem kurz_open_outcome (ks : Kurz.KurzSensor) (conn : option nat)
    (sw : SysWorld) :
  let r := prun (Kurz.openSerialConnection ks conn) sw in
  let s := run (Kurz.searchPorts ks) (sw_inner sw) in
  (snd (fst (fst r)) = None <->
   snd (fst (fst s)) = None
   /\ (exists c, next_open sw = Opened c)
   /\ snd (fst (fst (run (Kurz.collectSensorInfo ks) (snd s)))) = None)
  /\ (forall c, snd (fst (fst s)) = None -> next_open sw = Opened c ->
      snd (fst (fst (fst r))) = Some c)
  /\ List.filter is_close (snd (fst r))
     = match conn with
       | Some c => [SClose c (next_close sw)]
       | None => []
       end.
Proof.
  intros r s. subst r s.
  kurz_open_cases ks conn sw;
    (split; [split; [intros Hn | intros (Hs & (c0 & Ho) & Hc)]|
             split; [intros c0 Hs Ho|]]);
    try discriminate; try reflexivity;
    try (injection Ho as <-; reflexivity);
    try (filter_sys; reflexivity);
    try (repeat split; try reflexivity; now eexists).
Qed.

(** ** What an opening writes, and the close before it *)

Lemma written_quiet (ts : list obs) (rest : list sys_obs) :
  Forall (fun o => is_exec o || is_log o = true) ts ->
  written (map SInner ts ++ rest) = written rest.
Proof.
  induction 1 as [|o ts Ho _ IH]; [reflexivity|].
  cbn [map app]. destruct o; try discriminate; exact IH.
Qed.

Lemma collectProbeInfo_written (vs : Vaisala.VaisalaSensor) (w : World)
    (rest : list sys_obs) :
  written (map SInner (snd (fst (run (Vaisala.collectProbeInfo vs) w))) ++ rest)
  = ("?" +:+ CRLF) :: written rest.
Proof.
  destruct w as [ws rs xs]. unfold Vaisala.collectProbeInfo, Vaisala.writeCommand.
  destruct ws as [|[e|] ws]; run_calls; try reflexivity;
    destruct rs as [|[line [e|]] rs]; run_calls; reflexivity.
Qed.

Lemma collectSensorInfo_written (ks : Kurz.KurzSensor) (w : World)
    (rest : list sys_obs) :
  written (map SInner (snd (fst (run (Kurz.collectSensorInfo ks) w))) ++ rest)
  = "?" :: written rest.
Proof.
  destruct w as [ws rs xs]. unfold Kurz.collectSensorInfo, Kurz.writeCommand.
  destruct ws as [|[e|] ws]; run_calls; try reflexivity;
    destruct rs as [|[line [e|]] rs]; run_calls; reflexivity.
Qed.

(** X14: the CO2 driver's [openSerialConnection] writes nothing before the
    port is open, then the select command ["open <address>\r\n"] with the
    address in decimal, then the query ["?\r\n"], in this order and each at
    most once; when it returns nil it has written both.  The flow-rate
    driver's writes the query ["?"] alone, with no select command. *)
Theorem open_writes (vs : Vaisala.VaisalaSensor) (ks : Kurz.KurzSensor)
    (conn : option nat) (sw : SysWorld) :
  let select := "open " +:+ itoa (Vaisala.defaultAddress vs) +:+ CRLF in
  let rv := prun (Vaisala.openSerialConnection vs conn) sw in
  let rk := prun (Kurz.openSerialConnection ks conn) sw in
  (written (snd (fst rv)) = []
   \/ written (snd (fst rv)) = [select]
   \/ written (snd (fst rv)) = [select; "?" +:+ CRLF])
  /\ (snd (fst (fst rv)) = None -> written (snd (fst rv)) = [select; "?" +:+ CRLF])
  /\ (written (snd (fst rk)) = [] \/ written (snd (fst rk)) = ["?"])
  /\ (snd (fst (fst rk)) = None -> written (snd (fst rk)) = ["?"]).
Proof.
  intros select rv rk. subst rv rk.
  pose proof (fun w => proj1 (searchPorts_calls vs ks w)) as Hsv.
  pose proof (fun w => proj2 (searchPorts_calls vs ks w)) as Hsk.
  pose proof (collectProbeInfo_written vs) as Hcv.
  pose proof (collectSensorInfo_written ks) as Hck.
  assert (Hv : (written (snd (fst (prun (Vaisala.openSerialConnection vs conn) sw))) = []
                \/ written (snd (fst (prun (Vaisala.openSerialConnection vs conn) sw)))
                   = [select]
                \/ written (snd (fst (prun (Vaisala.openSerialConnection vs conn) sw)))
                   = [select; "?" +:+ CRLF])
               /\ (snd (fst (fst (prun (Vaisala.openSerialConnection vs conn) sw))) = None ->
                   written (snd (fst (prun (Vaisala.openSerialConnection vs conn) sw)))
                   = [select; "?" +:+ CRLF])).
  { clear Hsk Hck. revert Hsv Hcv. vaisala_open_cases vs conn sw; intros Hsv Hcv;
      specialize (Hsv w0); rewrite Esearch in Hsv; cbn [fst snd] in Hsv;
      cbn [written]; rewrite (written_quiet _ _ Hsv); cbn [written];
      try (match goal with
           | Ec : run (Vaisala.collectProbeInfo vs) ?w = _ |- _ =>
               specialize (Hcv w); rewrite Ec in Hcv; cbn [fst snd] in Hcv;
               rewrite Hcv; cbn [written]
           end);
      (split; [auto | intros Hn; try discriminate; reflexivity]). }
  assert (Hk : (written (snd (fst (prun (Kurz.openSerialConnection ks conn) sw))) = []
                \/ written (snd (fst (prun (Kurz.openSerialConnection ks conn) sw))) = ["?"])
               /\ (snd (fst (fst (prun (Kurz.openSerialConnection ks conn) sw))) = None ->
                   written (snd (fst (prun (Kurz.openSerialConnection ks conn) sw)))
                   = ["?"])).
  { clear Hsv Hcv Hv. revert Hsk Hck. kurz_open_cases ks conn sw; intros Hsk Hck;
      specialize (Hsk w0); rewrite Esearch in Hsk; cbn [fst snd] in Hsk;
      cbn [written]; rewrite (written_quiet _ _ Hsk); cbn [written];
      try (match goal with
           | Ec : run (Kurz.collectSensorInfo ks) ?w = _ |- _ =>
               specialize (Hck w); rewrite Ec in Hck; cbn [fst snd] in Hck;
               rewrite Hck; cbn [written]
           end);
      (split; [auto | intros Hn; try discriminate; reflexivity]). }
  destruct Hv as [Hv1 Hv2]. destruct Hk as [Hk1 Hk2]. repeat split; assumption.
Qed.

(** X15: with a connection held, [openSerialConnection] closes it before
    anything else.  Whether that close fails changes nothing but one log
    line: the error returned, the fields of the struct other than the
    connection, and every later call, are those of an opening that starts
    without a connection. *)
Theorem open_closes_first (vs : Vaisala.VaisalaSensor) (ks : Kurz.KurzSensor)
    (c : nat) (sw : SysWorld) :
  let sw' := mkSysWorld (sw_inner sw) (tl (sw_closes sw)) (sw_opens sw) in
  let closing :=
    SClose c (next_close sw)
    :: match next_close sw with
       | Some e => [SInner (OLog "Error closing existing serial connection: %v" [e])]
       | None => []
       end in
  (snd (fst (prun (Vaisala.openSerialConnection vs (Some c)) sw))
   = closing ++ snd (fst (prun (Vaisala.openSerialConnection vs None) sw'))
   /\ snd (fst (fst (prun (Vaisala.openSerialConnection vs (Some c)) sw)))
      = snd (fst (fst (prun (Vaisala.openSerialConnection vs None) sw')))
   /\ fst (fst (fst (fst (prun (Vaisala.openSerialConnection vs (Some c)) sw))))
      = fst (fst (fst (fst (prun (Vaisala.openSerialConnection vs None) sw')))))
  /\ (snd (fst (prun (Kurz.openSerialConnection ks (Some c)) sw))
      = closing ++ snd (fst (prun (Kurz.openSerialConnection ks None) sw'))
      /\ snd (fst (fst (prun (Kurz.openSerialConnection ks (Some c)) sw)))
         = snd (fst (fst (prun (Kurz.openSerialConnection ks None) sw')))
      /\ fst (fst (fst (fst (prun (Kurz.openSerialConnection ks (Some c)) sw))))
         = fst (fst (fst (fst (prun (Kurz.openSerialConnection ks None) sw'))))).
Proof.
  intros sw' closing. subst sw' closing. split.
  - vaisala_open_cases vs (Some c) sw; repeat split; reflexivity.
  - kurz_open_cases ks (Some c) sw; repeat split; reflexivity.
Qed.

(** X16: when discovery succeeds and [serial.Open] fails,
    [openSerialConnection] of either driver returns "failed to open serial
    connection" with the cause, the struct is left with the nil connection
    that [serial.Open] returned, also when it held a connection before, and
    nothing is written. *)
Theorem open_port_failed (vs : Vaisala.VaisalaSensor) (ks : Kurz.KurzSensor)
    (conn : option nat) (sw : SysWorld) :
  (forall e,
      snd (fst (fst (run (Vaisala.searchPorts vs) (sw_inner sw)))) = None ->
      next_open sw = OpenFailed e ->
      fst (fst (prun (Vaisala.openSerialConnection vs conn) sw))
      = (vs, None, Some ("failed to open serial connection: " +:+ e))
      /\ written (snd (fst (prun (Vaisala.openSerialConnection vs conn) sw))) = [])
  /\ (forall e,
      snd (fst (fst (run (Kurz.searchPorts ks) (sw_inner sw)))) = None ->
      next_open sw = OpenFailed e ->
      fst (fst (prun (Kurz.openSerialConnection ks conn) sw))
      = (ks, None, Some ("failed to open serial connection: " +:+ e))
      /\ written (snd (fst (prun (Kurz.openSerialConnection ks conn) sw))) = []).
Proof.
  pose proof (fun w => proj1 (searchPorts_calls vs ks w)) as Hsv.
  pose proof (fun w => proj2 (searchPorts_calls vs ks w)) as Hsk.
  split.
  - clear Hsk. revert Hsv. vaisala_open_cases vs conn sw; intros Hsv e Hs Ho;
      try discriminate; injection Ho as <-;
      specialize (Hsv w0); rewrite Esearch in Hsv; cbn [fst snd] in Hsv;
      (split; [reflexivity|]);
      cbn [written]; rewrite (written_quiet _ _ Hsv); reflexivity.
  - clear Hsv. revert Hsk. kurz_open_cases ks conn sw; intros Hsk e Hs Ho;
      try discriminate; injection Ho as <-;
      specialize (Hsk w0); rewrite Esearch in Hsk; cbn [fst snd] in Hsk;
      (split; [reflexivity|]);
      cbn [written]; rewrite (written_quiet _ _ Hsk); reflexivity.
Qed.

(** ** The lock during an opening *)

Lemma quiet_no_lock (ts : list obs) :
  Forall (fun o => is_exec o || is_log o = true) ts ->
  Forall (fun o => is_lock o = false) (map SInner ts).
Proof.
  induction 1 as [|o ts Ho _ IH]; cbn [map]; constructor; [|exact IH].
  destruct o; try discriminate; reflexivity.
Qed.

Lemma collectProbeInfo_no_lock (vs : Vaisala.VaisalaSensor) (w : World) :
  Forall (fun o => is_lock o = false)
    (map SInner (snd (fst (run (Vaisala.collectProbeInfo vs) w)))).
Proof.
  destruct w as [ws rs xs]. unfold Vaisala.collectProbeInfo, Vaisala.writeCommand.
  destruct ws as [|[e|] ws]; run_calls; cbn [map]; repeat constructor;
    destruct rs as [|[line [e|]] rs]; run_calls; cbn [map]; repeat constructor.
Qed.

Lemma collectSensorInfo_no_lock (ks : Kurz.KurzSensor) (w : World) :
  Forall (fun o => is_lock o = false)
    (map SInner (snd (fst (run (Kurz.collectSensorInfo ks) w)))).
Proof.
  destruct w as [ws rs xs]. unfold Kurz.collectSensorInfo, Kurz.writeCommand.
  destruct ws as [|[e|] ws]; run_calls; cbn [map]; repeat constructor;
    destruct rs as [|[line [e|]] rs]; run_calls; cbn [map]; repeat constructor.
Qed.

Ltac no_lock Hs Hc :=
  repeat first [ exact Hs | exact Hc
               | apply Forall_nil_2
               | apply Forall_cons_2; [reflexivity|]
               | apply Forall_app_2 ].

(** X17: [openSerialConnection] of either driver never takes the session
    lock: the select command and the identification query are written, and
    the identification line is read, outside the lock that the reads of the
    polling loop take. *)
Theorem open_takes_no_lock (vs : Vaisala.VaisalaSensor) (ks : Kurz.KurzSensor)
    (conn : option nat) (sw : SysWorld) :
  Forall (fun o => is_lock o = false)
    (snd (fst (prun (Vaisala.openSerialConnection vs conn) sw)))
  /\ Forall (fun o => is_lock o = false)
       (snd (fst (prun (Kurz.openSerialConnection ks conn) sw))).
Proof.
  pose proof (fun w => quiet_no_lock _ (proj1 (searchPorts_calls vs ks w))) as Hsv.
  pose proof (fun w => quiet_no_lock _ (proj2 (searchPorts_calls vs ks w))) as Hsk.
  pose proof (collectProbeInfo_no_lock vs) as Hcv.
  pose proof (collectSensorInfo_no_lock ks) as Hck.
  split.
  - clear Hsk Hck. revert Hsv Hcv. vaisala_open_cases vs conn sw; intros Hsv Hcv;
      specialize (Hsv w0); rewrite Esearch in Hsv; cbn [fst snd] in Hsv;
      try (match goal with
           | Ec : run (Vaisala.collectProbeInfo vs) ?w = _ |- _ =>
               specialize (Hcv w); rewrite Ec in Hcv; cbn [fst snd] in Hcv
           end);
      no_lock Hsv Hcv.
  - clear Hsv Hcv. revert Hsk Hck. kurz_open_cases ks conn sw; intros Hsk Hck;
      specialize (Hsk w0); rewrite Esearch in Hsk; cbn [fst snd] in Hsk;
      try (match goal with
           | Ec : run (Kurz.collectSensorInfo ks) ?w = _ |- _ =>
               specialize (Hck w); rewrite Ec in Hck; cbn [fst snd] in Hck
           end);
      no_lock Hsk Hck.
Qed.

(** An opening of the CO2 probe that goes through. *)
Example vaisala_open_sample :
  fst (prun (Vaisala.openSerialConnection (fst (Vaisala.newVaisalaSensor 9600 240)) (Some 3))
         (mkSysWorld
            (mkWorld [] [("Device : GMP252 SNUM : R3234317 SW : 1" +:+ String LF "", None)]
               [("usb-Silicon_Labs_Vaisala_USB_Instrument_Cable-if00-port0 -> ../../ttyUSB0",
                 None)])
            [Some "input/output error"] [Opened 4]))
  = ((Vaisala.mkVaisalaSensor 19200 8 240 "GMP252" "R3234317" "1", Some 4, None),
     [SClose 3 (Some "input/output error");
      SInner (OLog "Error closing existing serial connection: %v" ["input/output error"]);
      SInner (OLog "searching for Vaisala sensor" []);
      SInner (OExec "ls -l /dev/serial/by-id"
                "usb-Silicon_Labs_Vaisala_USB_Instrument_Cable-if00-port0 -> ../../ttyUSB0"
                None);
      SInner (OLog "command output: %s"
                ["usb-Silicon_Labs_Vaisala_USB_Instrument_Cable-if00-port0 -> ../../ttyUSB0"]);
      SInner (OLog "using regex pattern: %s"
                ["usb-Silicon_Labs_Vaisala_USB.*->.*ttyUSB\d+"]);
      SInner (OLog "regex results: %v"
                ["usb-Silicon_Labs_Vaisala_USB_Instrument_Cable-if00-port0 -> ../../ttyUSB0"]);
      SInner (OLog "vaisalaDefaultPortFormat: %s, last part of sensorPath: %s"
                ["/dev/%s"; "ttyUSB0"]);
      SInner (OLog "vaisala sensor found on port: %s" ["/dev/ttyUSB0"]);
      SInner (OLog "found Vaisala sensor at port: %s" ["/dev/ttyUSB0"]);
      SOpen "/dev/ttyUSB0" 19200 8 (Opened 4);
      SInner (OLog "opened serial connection" []);
      SInner (OWrite ("open 240" +:+ CRLF) None);
      SInner (OWrite ("?" +:+ CRLF) None);
      SInner (OReadString LF ("Device : GMP252 SNUM : R3234317 SW : 1" +:+ String LF "") None)]).
Proof. vm_compute. reflexivity. Qed.
